(** * Pv_App: validation workflow and notification delivery

    A shallow embedding of the core of the Django application
    (core/models.py, core/views.py, core/signals.py, core/consumers.py)
    and the properties of its validation ledger, its notification
    dispatcher and its WebSocket consumer. *)

From Stdlib Require Import List Bool Arith NArith ZArith Lia String Ascii.
From Stdlib Require Import DecimalString.
Import ListNotations.

Set Implicit Arguments.
Local Open Scope N_scope.

(** ** Python strings

    A Python [str] is a sequence of Unicode code points: [len], slicing
    and [strip] count code points, not bytes. *)

Definition char := N.
Definition str := list char.

(** Literals of the source are written as Rocq strings (UTF-8 bytes) and
    decoded to code points. *)
Fixpoint utf8_decode (acc : N) (pending : nat) (bs : list N) : str :=
  match bs with
  | [] => []
  | b :: r =>
      match pending with
      | O =>
          if b <? 128 then b :: utf8_decode 0 0 r
          else if b <? 224 then utf8_decode (b - 192) 1 r
          else if b <? 240 then utf8_decode (b - 224) 2 r
          else utf8_decode (b - 240) 3 r
      | S O => (acc * 64 + (b - 128)) :: utf8_decode 0 0 r
      | S k => utf8_decode (acc * 64 + (b - 128)) k r
      end
  end.

Definition lit (s : string) : str :=
  utf8_decode 0 0 (map N_of_ascii (list_ascii_of_string s)).

Definition str_eqb (a b : str) : bool :=
  if list_eq_dec N.eq_dec a b then true else false.

(** [str(n)] for a non-negative integer. *)
Definition str_of_N (n : N) : str :=
  lit (NilZero.string_of_uint (N.to_uint n)).

(** [str.isspace] on one code point. *)
Definition isspace (c : char) : bool :=
  ((9 <=? c) && (c <=? 13)) || ((28 <=? c) && (c <=? 32))
  || (c =? 133) || (c =? 160) || (c =? 5760)
  || ((8192 <=? c) && (c <=? 8202))
  || (c =? 8232) || (c =? 8233) || (c =? 8239) || (c =? 8287)
  || (c =? 12288).

Fixpoint lstrip (s : str) : str :=
  match s with
  | [] => []
  | c :: r => if isspace c then lstrip r else s
  end.

Definition rstrip (s : str) : str := rev (lstrip (rev s)).

Definition strip (s : str) : str := rstrip (lstrip s).

(** [needle in haystack] for strings. *)
Fixpoint startswith (s p : str) : bool :=
  match p, s with
  | [], _ => true
  | _ :: _, [] => false
  | a :: p', b :: s' => (a =? b) && startswith s' p'
  end.

Fixpoint contains (s sub : str) : bool :=
  startswith s sub ||
  match s with
  | [] => false
  | _ :: r => contains r sub
  end.

(** ** Datetimes

    A [datetime.datetime]; all values of the application are produced by
    [timezone.now()], so they share one time zone and compare field by
    field, as Python compares them. *)

Module datetime.
Record t := mk {
  year : N; month : N; day : N;
  hour : N; minute : N; second : N; microsecond : N
}.

Definition astuple (d : t) : list N :=
  [year d; month d; day d; hour d; minute d; second d; microsecond d].

Fixpoint lexcmp (a b : list N) : comparison :=
  match a, b with
  | [], [] => Eq
  | [], _ :: _ => Lt
  | _ :: _, [] => Gt
  | x :: a', y :: b' =>
      match x ?= y with
      | Eq => lexcmp a' b'
      | c => c
      end
  end.

Definition compare (a b : t) : comparison := lexcmp (astuple a) (astuple b).

(** [a <= b], [a < b], [a > b] *)
Definition leb (a b : t) : bool :=
  match compare a b with Gt => false | _ => true end.
Definition ltb (a b : t) : bool :=
  match compare a b with Lt => true | _ => false end.
Definition gtb (a b : t) : bool := ltb b a.
Definition eqb (a b : t) : bool :=
  match compare a b with Eq => true | _ => false end.

Definition pad (width : nat) (n : N) : str :=
  let s := str_of_N n in
  repeat 48 (width - List.length s) ++ s.

(** [d.strftime('%d/%m/%Y à %H:%M')] *)
Definition strftime_fr (d : t) : str :=
  pad 2 (day d) ++ lit "/" ++ pad 2 (month d) ++ lit "/" ++ pad 4 (year d)
  ++ lit " à " ++ pad 2 (hour d) ++ lit ":" ++ pad 2 (minute d).

(** [d.isoformat()] *)
Definition isoformat (d : t) : str :=
  pad 4 (year d) ++ lit "-" ++ pad 2 (month d) ++ lit "-" ++ pad 2 (day d)
  ++ lit "T" ++ pad 2 (hour d) ++ lit ":" ++ pad 2 (minute d)
  ++ lit ":" ++ pad 2 (second d)
  ++ (if microsecond d =? 0 then [] else lit "." ++ pad 6 (microsecond d)).
End datetime.

(** ** The models (core/models.py)

    A foreign key is held as the referenced object, the way the Python
    instance holds it; two model instances are equal ([==]) when their
    primary keys are. None of the operations below updates a user or a
    service, so a held object always agrees with its row. *)

Module User.
(** [ROLE_CHOICES] *)
Inductive ROLE := admin | user | validator.

Record t := mk {
  id : N;
  username : str;
  role : ROLE;
  is_validated : bool
}.

Definition eqb (a b : t) : bool := id a =? id b.

Definition role_eqb (a b : ROLE) : bool :=
  match a, b with
  | admin, admin | user, user | validator, validator => true
  | _, _ => false
  end.
End User.

Module Service.
(** [STATUT_CHOICES] *)
Inductive STATUT := ouvert | ferme.

(** [date_fermeture] is nullable in the schema, and [Service.save]
    fills it when the row is created. *)
Record t := mk {
  id : N;
  user : User.t;
  date_ouverture : datetime.t;
  date_fermeture : datetime.t;
  statut : STATUT
}.

Definition statut_eqb (a b : STATUT) : bool :=
  match a, b with
  | ouvert, ouvert | ferme, ferme => true
  | _, _ => false
  end.

Definition is_active (now : datetime.t) (self : t) : bool :=
  statut_eqb (statut self) ouvert && datetime.gtb (date_fermeture self) now.
End Service.

Module Action.
(** The columns read by the validation workflow; [categorie], [cause],
    [personnes_impliquees], the operational [statut], [suivi] and
    [date_modification] are carried by the row and never read by it. *)
Record t := mk {
  id : N;
  auteur : User.t;
  service : Service.t;
  description : str;
  date_creation : datetime.t
}.

Definition eqb (a b : t) : bool := id a =? id b.
End Action.

Module Validation.
(** [STATUT_CHOICES]: 'en_attente', 'validé', 'refusé' *)
Inductive STATUT := en_attente | valide | refuse.

Record t := mk {
  id : N;
  action : Action.t;
  validateur : User.t;
  statut : STATUT;
  commentaire : option str;
  date_validation : datetime.t
}.

Definition statut_eqb (a b : STATUT) : bool :=
  match a, b with
  | en_attente, en_attente | valide, valide | refuse, refuse => true
  | _, _ => false
  end.

Definition is_self_validation (self : t) : bool :=
  User.eqb (validateur self) (Action.auteur (action self)).

Definition can_validate (user : User.t) : bool :=
  User.role_eqb (User.role user) User.admin.
End Validation.

Module Notification.
(** [TYPE_CHOICES] *)
Inductive TYPE := T_validation | T_refus | T_commentaire | T_nouvelle_action.

Record t := mk {
  id : N;
  destinataire : User.t;
  type : TYPE;
  message : str;
  lue : bool;
  date : datetime.t;
  action : option Action.t;
  validation : option Validation.t
}.

Definition type_eqb (a b : TYPE) : bool :=
  match a, b with
  | T_validation, T_validation | T_refus, T_refus
  | T_commentaire, T_commentaire | T_nouvelle_action, T_nouvelle_action => true
  | _, _ => false
  end.

(** The value of the [type] column, as sent on the wire. *)
Definition type_str (ty : TYPE) : str :=
  match ty with
  | T_validation => lit "validation"
  | T_refus => lit "refus"
  | T_commentaire => lit "commentaire"
  | T_nouvelle_action => lit "nouvelle_action"
  end.

Definition get_icon (self : t) : str :=
  match type self with
  | T_validation => lit "✓"
  | T_refus => lit "✗"
  | T_commentaire => lit "💬"
  | T_nouvelle_action => lit "📝"
  end.
End Notification.

(** ** The store and the channel layer

    Each table is the list of its rows in the order the backend scans
    them (new rows are appended); the [_seq] fields are the
    auto-increment counters of the primary keys. [channel_layer] records
    the group messages handed to the channel layer. *)

Record NotificationData := {
  nd_id : N;
  nd_type : str;
  nd_message : str;
  nd_date : str;
  nd_icon : str
}.

(** The event [{'type': 'notification_message', 'notification': ..., 'count': ...}]. *)
Record GroupEvent := {
  ev_group : str;
  ev_notification : NotificationData;
  ev_count : nat
}.

Record State := {
  users : list User.t;
  services : list Service.t;
  actions : list Action.t;
  validations : list Validation.t;
  validation_seq : N;
  notifications : list Notification.t;
  notification_seq : N;
  channel_layer : list GroupEvent
}.

(** ** Querysets *)

(** [qs.order_by(...)]: the rows sorted on the given key alone; rows
    with equal keys come out in the order the backend scanned them. *)
Fixpoint insert_row {A} (before : A -> A -> bool) (x : A) (l : list A) : list A :=
  match l with
  | [] => [x]
  | y :: r => if before x y then x :: l else y :: insert_row before x r
  end.

Fixpoint order_by {A} (before : A -> A -> bool) (l : list A) : list A :=
  match l with
  | [] => []
  | x :: r => insert_row before x (order_by before r)
  end.

(** [qs.first()] *)
Definition first {A} (l : list A) : option A := hd_error l.

(** [action.validations]: the reverse side of [Validation.action]. *)
Definition Action_validations (st : State) (self : Action.t) : list Validation.t :=
  filter (fun v => Action.eqb (Validation.action v) self) (validations st).

(** [order_by('-date_validation')] *)
Definition by_date_validation_desc (x y : Validation.t) : bool :=
  datetime.leb (Validation.date_validation y) (Validation.date_validation x).

(** [order_by('date_validation')] *)
Definition by_date_validation_asc (x y : Validation.t) : bool :=
  datetime.leb (Validation.date_validation x) (Validation.date_validation y).

(** [Action.latest_validation] *)
Definition latest_validation (st : State) (self : Action.t) : option Validation.t :=
  first (order_by by_date_validation_desc (Action_validations st self)).

(** [Action.validation_status] *)
Definition validation_status (st : State) (self : Action.t) : Validation.STATUT :=
  match latest_validation st self with
  | Some latest => Validation.statut latest
  | None => Validation.en_attente
  end.

(** [Action.get_validation_history] *)
Definition get_validation_history (st : State) (self : Action.t) : list Validation.t :=
  order_by by_date_validation_asc (Action_validations st self).

(** [Action.can_be_edited] *)
Definition can_be_edited (st : State) (self : Action.t) : bool :=
  let status := validation_status st self in
  existsb (Validation.statut_eqb status) [Validation.en_attente; Validation.refuse].

(** The status the specification describes: the outcome of the ledger
    entry with the greatest (creation timestamp, id) pair. *)
Definition spec_key_ltb (a b : Validation.t) : bool :=
  datetime.ltb (Validation.date_validation a) (Validation.date_validation b)
  || (datetime.eqb (Validation.date_validation a) (Validation.date_validation b)
      && (Validation.id a <? Validation.id b)).

Definition spec_latest (ledger : list Validation.t) : option Validation.t :=
  fold_left (fun best v =>
               match best with
               | None => Some v
               | Some b => if spec_key_ltb b v then Some v else Some b
               end) ledger None.

Definition spec_current_status (st : State) (a : Action.t) : Validation.STATUT :=
  match spec_latest (Action_validations st a) with
  | Some v => Validation.statut v
  | None => Validation.en_attente
  end.

(** ** The notification dispatcher (core/signals.py) *)

Definition set_notifications (st : State) (l : list Notification.t) (seq : N) : State :=
  {| users := users st; services := services st; actions := actions st;
     validations := validations st; validation_seq := validation_seq st;
     notifications := l; notification_seq := seq;
     channel_layer := channel_layer st |}.

Definition set_validations (st : State) (l : list Validation.t) (seq : N) : State :=
  {| users := users st; services := services st; actions := actions st;
     validations := l; validation_seq := seq;
     notifications := notifications st; notification_seq := notification_seq st;
     channel_layer := channel_layer st |}.

Definition set_channel_layer (st : State) (l : list GroupEvent) : State :=
  {| users := users st; services := services st; actions := actions st;
     validations := validations st; validation_seq := validation_seq st;
     notifications := notifications st; notification_seq := notification_seq st;
     channel_layer := l |}.

Definition set_actions (st : State) (l : list Action.t) : State :=
  {| users := users st; services := services st; actions := l;
     validations := validations st; validation_seq := validation_seq st;
     notifications := notifications st; notification_seq := notification_seq st;
     channel_layer := channel_layer st |}.

(** [Notification.objects.filter(destinataire=user, lue=False).count()] *)
Definition unread (user : User.t) (n : Notification.t) : bool :=
  User.eqb (Notification.destinataire n) user && negb (Notification.lue n).

Definition count_unread (st : State) (user : User.t) : nat :=
  List.length (filter (unread user) (notifications st)).

(** [Notification.objects.create(...)]: [lue] defaults to [False], [date]
    is set by [auto_now_add]. *)
Definition Notification_objects_create (now : datetime.t) (st : State)
    (destinataire : User.t) (type : Notification.TYPE) (message : str)
    (action : option Action.t) (validation : option Validation.t)
  : State * Notification.t :=
  let pk := notification_seq st + 1 in
  let notification :=
    Notification.mk pk destinataire type message false now action validation in
  (set_notifications st (notifications st ++ [notification]) pk, notification).

Definition send_websocket_notification (st : State) (user : User.t)
    (notification_data : NotificationData) (unread_count : nat) : State :=
  let group_name := lit "notifications_" ++ str_of_N (User.id user) in
  set_channel_layer st
    (channel_layer st ++
       [{| ev_group := group_name;
           ev_notification := notification_data;
           ev_count := unread_count |}]).

Definition nl : str := [10].

(** Truth value of an optional string ([None] and [''] are false). *)
Definition truthy (s : option str) : bool :=
  match s with
  | Some (_ :: _) => true
  | _ => false
  end.

Definition or_empty (s : option str) : str :=
  match s with Some c => c | None => [] end.

(** The type and message chosen by [create_validation_notification]. *)
Definition validation_message (instance : Validation.t) : Notification.TYPE * str :=
  let action := Validation.action instance in
  let validateur := Validation.validateur instance in
  let commentaire := Validation.commentaire instance in
  match Validation.statut instance with
  | Validation.valide =>
      (Notification.T_validation,
       lit "Votre action du " ++ datetime.strftime_fr (Action.date_creation action)
       ++ lit " a été validée par " ++ User.username validateur ++ lit ".")
  | Validation.refuse =>
      let message :=
        lit "Votre action du " ++ datetime.strftime_fr (Action.date_creation action)
        ++ lit " a été refusée par " ++ User.username validateur ++ lit "." in
      (Notification.T_refus,
       if truthy commentaire
       then message ++ (nl ++ nl ++ lit "Commentaire : " ++ or_empty commentaire)
       else message)
  | Validation.en_attente =>
      let message :=
        User.username validateur ++ lit " a commenté votre action du "
        ++ datetime.strftime_fr (Action.date_creation action) ++ lit "." in
      (Notification.T_commentaire,
       if truthy commentaire
       then message ++ (nl ++ nl ++ lit "Commentaire : " ++ or_empty commentaire)
       else message)
  end.

Definition notification_data (notification : Notification.t) : NotificationData :=
  {| nd_id := Notification.id notification;
     nd_type := Notification.type_str (Notification.type notification);
     nd_message := Notification.message notification;
     nd_date := datetime.isoformat (Notification.date notification);
     nd_icon := Notification.get_icon notification |}.

(** [notify_user] *)
Definition notify_user (now : datetime.t) (st : State) (user : User.t)
    (notif_type : Notification.TYPE) (message : str)
    (action : option Action.t) (validation : option Validation.t) : State :=
  let '(st1, notification) :=
    Notification_objects_create now st user notif_type message action validation in
  let unread_count := count_unread st1 user in
  send_websocket_notification st1 user (notification_data notification) unread_count.

(** [create_validation_notification], the [post_save] receiver of
    [Validation]. *)
Definition create_validation_notification (now : datetime.t) (st : State)
    (instance : Validation.t) (created : bool) : State :=
  if created then
    let action := Validation.action instance in
    let author := Action.auteur action in
    if User.eqb (Validation.validateur instance) author then st
    else
      let '(notif_type, message) := validation_message instance in
      let '(st1, notification) :=
        Notification_objects_create now st author notif_type message
          (Some action) (Some instance) in
      let unread_count := count_unread st1 author in
      send_websocket_notification st1 author (notification_data notification)
        unread_count
  else st.

(** [len(s) > 100] and [s[:100]] *)
Definition new_action_message (instance : Action.t) : str :=
  let message :=
    lit "Nouvelle action créée par " ++ User.username (Action.auteur instance)
    ++ lit " le " ++ datetime.strftime_fr (Action.date_creation instance) ++ lit "." in
  if (100 <? List.length (Action.description instance))%nat
  then message ++ (nl ++ lit "Description : "
                      ++ firstn 100 (Action.description instance) ++ lit "...")
  else message ++ (nl ++ lit "Description : " ++ Action.description instance).

(** [User.objects.filter(role='admin', is_validated=True).exclude(id=...)] *)
Definition admins_to_notify (st : State) (instance : Action.t) : list User.t :=
  filter (fun u => negb (User.id u =? User.id (Action.auteur instance)))
    (filter (fun u => User.role_eqb (User.role u) User.admin && User.is_validated u)
       (users st)).

(** The body of the loop of [create_new_action_notification]. *)
Definition notify_admin (now : datetime.t) (instance : Action.t) (st : State)
    (admin : User.t) : State :=
  let message := new_action_message instance in
  let '(st1, notification) :=
    Notification_objects_create now st admin Notification.T_nouvelle_action
      message (Some instance) None in
  let unread_count := count_unread st1 admin in
  send_websocket_notification st1 admin (notification_data notification)
    unread_count.

(** [create_new_action_notification], the [post_save] receiver of
    [Action]. *)
Definition create_new_action_notification (now : datetime.t) (st : State)
    (instance : Action.t) (created : bool) : State :=
  if created then
    fold_left (notify_admin now instance) (admins_to_notify st instance) st
  else st.

(** ** Saving ledger entries

    [Validation.objects.create(...)] and [validation.save()] insert the
    row ([date_validation] set by [auto_now_add]) and fire [post_save]
    with [created=True]; neither calls [clean]. *)
Definition Validation_save_new (now : datetime.t) (st : State)
    (action : Action.t) (validateur : User.t) (statut : Validation.STATUT)
    (commentaire : option str) : State :=
  let pk := validation_seq st + 1 in
  let instance := Validation.mk pk action validateur statut commentaire now in
  let st1 := set_validations st (validations st ++ [instance]) pk in
  create_validation_notification now st1 instance true.

Definition Validation_objects_create := Validation_save_new.

(** [Validation.clean]: [Some message] when [ValidationError] is raised. *)
Definition Validation_clean (statut : Validation.STATUT) (commentaire : option str)
    (validateur : User.t) : option str :=
  if Validation.statut_eqb statut Validation.refuse && negb (truthy commentaire)
  then Some (lit "Un commentaire est obligatoire pour refuser une action.")
  else if negb (User.role_eqb (User.role validateur) User.admin)
  then Some (lit "Seuls les administrateurs peuvent valider des actions.")
  else None.

(** ** The views (core/views.py) *)

(** [django.contrib.messages] levels used by the views. *)
Inductive LEVEL := SUCCESS | WARNING | ERROR.

Definition Message := (LEVEL * str)%type.

Inductive HttpResponse :=
| redirect (to : string)
| render (template : string)
| JsonResponse (unread_count : nat)
| Http404.

(** [request.user] is [None] for an anonymous visitor; [POST] lists the
    submitted fields in the order of the request body. *)
Record HttpRequest := {
  user : option User.t;
  method : str;
  POST : list (str * str)
}.

(** [QueryDict.get(key, default)]: the last value submitted under [key]. *)
Fixpoint QueryDict_get (q : list (str * str)) (key : str) (default : str) : str :=
  match q with
  | [] => default
  | (k, v) :: r => QueryDict_get r key (if str_eqb k key then v else default)
  end.

Definition Response := (State * list Message * HttpResponse)%type.

(** [@login_required] *)
Definition login_required (st : State) (request : HttpRequest)
    (view : User.t -> Response) : Response :=
  match user request with
  | None => (st, [], redirect "login")
  | Some u => view u
  end.

(** [Action.objects.get(id=action_id)]; [None] is [Action.DoesNotExist]. *)
Definition Action_objects_get (st : State) (action_id : N) : option Action.t :=
  find (fun a => Action.id a =? action_id) (actions st).

Definition validate_action (now : datetime.t) (st : State) (request : HttpRequest)
    (action_id : N) : Response :=
  login_required st request (fun request_user =>
    if negb (User.role_eqb (User.role request_user) User.admin) then
      (st, [(ERROR, lit "Seuls les administrateurs peuvent valider des actions.")],
       redirect "dashboard")
    else
      match Action_objects_get st action_id with
      | None => (st, [(ERROR, lit "Action introuvable.")], redirect "pending_validations")
      | Some action =>
          if Validation.statut_eqb (validation_status st action) Validation.valide then
            (st, [(WARNING, lit "Cette action est déjà validée.")],
             redirect "pending_validations")
          else
            let warnings :=
              if User.eqb (Action.auteur action) request_user then
                [(WARNING,
                  lit "⚠️ Auto-validation détectée : vous validez votre propre action.")]
              else [] in
            let st1 :=
              Validation_objects_create now st action request_user Validation.valide None in
            (st1,
             warnings ++
               [(SUCCESS, lit "Action #" ++ str_of_N (Action.id action)
                            ++ lit " validée avec succès.")],
             redirect "pending_validations")
      end).

Definition reject_action (now : datetime.t) (st : State) (request : HttpRequest)
    (action_id : N) : Response :=
  login_required st request (fun request_user =>
    if negb (User.role_eqb (User.role request_user) User.admin) then
      (st, [(ERROR, lit "Seuls les administrateurs peuvent refuser des actions.")],
       redirect "dashboard")
    else
      match Action_objects_get st action_id with
      | None => (st, [(ERROR, lit "Action introuvable.")], redirect "pending_validations")
      | Some action =>
          if str_eqb (method request) (lit "POST") then
            let commentaire := strip (QueryDict_get (POST request) (lit "commentaire") []) in
            match commentaire with
            | [] =>
                (st, [(ERROR, lit "Un commentaire est obligatoire pour refuser une action.")],
                 render "validations/reject.html")
            | _ :: _ =>
                match Validation_clean Validation.refuse (Some commentaire) request_user with
                | None =>
                    let st1 :=
                      Validation_save_new now st action request_user Validation.refuse
                        (Some commentaire) in
                    (st1,
                     [(SUCCESS, lit "Action #" ++ str_of_N (Action.id action)
                                  ++ lit " refusée avec succès.")],
                     redirect "pending_validations")
                | Some e =>
                    (st, [(ERROR, lit "{'__all__': ['" ++ e ++ lit "']}")],
                     render "validations/reject.html")
                end
            end
          else (st, [], render "validations/reject.html")
      end).

Definition comment_action (now : datetime.t) (st : State) (request : HttpRequest)
    (action_id : N) : Response :=
  login_required st request (fun request_user =>
    if negb (User.role_eqb (User.role request_user) User.admin) then
      (st, [(ERROR, lit "Seuls les administrateurs peuvent commenter des actions.")],
       redirect "dashboard")
    else
      match Action_objects_get st action_id with
      | None => (st, [(ERROR, lit "Action introuvable.")], redirect "pending_validations")
      | Some action =>
          if str_eqb (method request) (lit "POST") then
            let commentaire := strip (QueryDict_get (POST request) (lit "commentaire") []) in
            match commentaire with
            | [] =>
                (st, [(ERROR, lit "Un commentaire est requis.")],
                 render "validations/comment.html")
            | _ :: _ =>
                let st1 :=
                  Validation_objects_create now st action request_user
                    (validation_status st action) (Some commentaire) in
                (st1,
                 [(SUCCESS, lit "Commentaire ajouté à l'action #"
                              ++ str_of_N (Action.id action) ++ lit ".")],
                 redirect "pending_validations")
            end
          else (st, [], render "validations/comment.html")
      end).

(** [get_unread_count]: the JSON API. *)
Definition get_unread_count (st : State) (request : HttpRequest) : Response :=
  login_required st request (fun request_user =>
    let count := List.length (filter (unread request_user) (notifications st)) in
    (st, [], JsonResponse count)).

(** [action_edit]. The bound [ActionForm] is Django's form machinery:
    [form_clean request] is [Some description] when [form.is_valid()]
    holds, [description] being the cleaned value [form.save()] writes to
    the instance (with the other form fields, which the row here does
    not carry). *)
Section ActionEdit.
Variable form_clean : HttpRequest -> option str.

Definition Action_save (st : State) (a : Action.t) : State :=
  set_actions st
    (map (fun row => if Action.eqb row a then a else row) (actions st)).

Definition with_description (a : Action.t) (description : str) : Action.t :=
  Action.mk (Action.id a) (Action.auteur a) (Action.service a) description
    (Action.date_creation a).

Definition action_edit (now : datetime.t) (st : State) (request : HttpRequest)
    (action_id : N) : Response :=
  login_required st request (fun request_user =>
    match Action_objects_get st action_id with
    | None => (st, [], Http404)
    | Some action =>
        if negb (User.eqb (Action.auteur action) request_user) then
          (st, [(ERROR, lit "Vous ne pouvez modifier que vos propres actions.")],
           redirect "action_list")
        else if negb (Service.statut_eqb (Service.statut (Action.service action))
                        Service.ouvert)
                || datetime.leb (Service.date_fermeture (Action.service action)) now
        then
          (st,
           [(ERROR,
             lit "Vous ne pouvez plus modifier cette action car le service est fermé.")],
           redirect "action_list")
        else if Validation.statut_eqb (validation_status st action) Validation.valide
        then
          (st, [(ERROR, lit "Vous ne pouvez pas modifier une action déjà validée.")],
           redirect "action_list")
        else if str_eqb (method request) (lit "POST") then
          match form_clean request with
          | Some description =>
              (Action_save st (with_description action description),
               [(SUCCESS, lit "Action modifiée avec succès !")],
               redirect "action_list")
          | None => (st, [], render "actions/edit.html")
          end
        else (st, [], render "actions/edit.html")
    end).
End ActionEdit.

(** ** JSON ([json.loads], [json.dumps])

    The values [json.loads] builds. A float keeps its lexeme, its value
    is never inspected; a dict keeps its pairs in document order. *)
#[warnings="-register-all"]
Inductive pyobj :=
| PyNone
| PyBool (b : bool)
| PyInt (z : Z)
| PyFloat (lexeme : str)
| PyStr (s : str)
| PyList (l : list pyobj)
| PyDict (d : list (str * pyobj)).

Definition is_ws (c : char) : bool :=
  (c =? 32) || (c =? 9) || (c =? 10) || (c =? 13).

Fixpoint skip_ws (s : str) : str :=
  match s with
  | [] => []
  | c :: r => if is_ws c then skip_ws r else s
  end.

Definition is_digit (c : char) : bool := (48 <=? c) && (c <=? 57).

Definition hexval (c : char) : option N :=
  if is_digit c then Some (c - 48)
  else if (97 <=? c) && (c <=? 102) then Some (c - 87)
  else if (65 <=? c) && (c <=? 70) then Some (c - 55)
  else None.

(** The four hexadecimal digits of a unicode escape. *)
Definition hex4 (s : str) : option (N * str) :=
  match s with
  | a :: b :: c :: d :: r =>
      match hexval a, hexval b, hexval c, hexval d with
      | Some a, Some b, Some c, Some d => Some (((a * 16 + b) * 16 + c) * 16 + d, r)
      | _, _, _, _ => None
      end
  | _ => None
  end.

(** [BACKSLASH] *)
Definition backslash (c : char) : option char :=
  if c =? 34 then Some 34          (* quote *)
  else if c =? 92 then Some 92     (* backslash *)
  else if c =? 47 then Some 47     (* slash *)
  else if c =? 98 then Some 8      (* b *)
  else if c =? 102 then Some 12    (* f *)
  else if c =? 110 then Some 10    (* n *)
  else if c =? 114 then Some 13    (* r *)
  else if c =? 116 then Some 9     (* t *)
  else None.

(** [scanstring], entered after the opening quote; [None] is
    [JSONDecodeError]. Each step consumes a character, so a fuel of the
    length of the text is enough. *)
Fixpoint scanstring (fuel : nat) (acc : str) (s : str) : option (str * str) :=
  match fuel with
  | O => None
  | S fuel =>
      match s with
      | [] => None
      | c :: r =>
          if c =? 34 then Some (rev acc, r)
          else if c =? 92 then
            match r with
            | [] => None
            | esc :: r1 =>
                if esc =? 117 then
                  match hex4 r1 with
                  | None => None
                  | Some (uni, r2) =>
                      if (55296 <=? uni) && (uni <=? 56319) && startswith r2 [92; 117]
                      then
                        match hex4 (skipn 2 r2) with
                        | None => None
                        | Some (uni2, r4) =>
                            if (56320 <=? uni2) && (uni2 <=? 57343) then
                              scanstring fuel
                                ((65536 + ((uni - 55296) * 1024 + (uni2 - 56320))) :: acc)
                                r4
                            else scanstring fuel (uni :: acc) r2
                        end
                      else scanstring fuel (uni :: acc) r2
                  end
                else
                  match backslash esc with
                  | Some ch => scanstring fuel (ch :: acc) r1
                  | None => None
                  end
            end
          else if c <? 32 then None
          else scanstring fuel (c :: acc) r
      end
  end.

Fixpoint span_digits (s : str) : str * str :=
  match s with
  | [] => ([], [])
  | c :: r =>
      if is_digit c then (c :: fst (span_digits r), snd (span_digits r))
      else ([], s)
  end.

Definition digits_value (d : str) : Z :=
  fold_left (fun acc c => (acc * 10 + Z.of_N (c - 48))%Z) d 0%Z.

(** [NUMBER_RE]: an optional minus sign, [0] or digits with no leading
    zero, then an optional fraction and an optional exponent. *)
Definition match_integer (s : str) : option (str * str) :=
  let sign := if startswith s [45] then [45] else [] in
  let s1 := if startswith s [45] then skipn 1 s else s in
  match s1 with
  | [] => None
  | c :: r =>
      if c =? 48 then Some (sign ++ [48], r)
      else if is_digit c then Some (sign ++ fst (span_digits s1), snd (span_digits s1))
      else None
  end.

Definition match_frac (s : str) : option (str * str) :=
  match s with
  | [] => None
  | c :: r =>
      if c =? 46 then
        match fst (span_digits r) with
        | [] => None
        | d => Some (46 :: d, snd (span_digits r))
        end
      else None
  end.

Definition match_exp (s : str) : option (str * str) :=
  match s with
  | [] => None
  | e :: r =>
      if (e =? 101) || (e =? 69) then
        let signed := startswith r [45] || startswith r [43] in
        let sign := if signed then firstn 1 r else [] in
        let r1 := if signed then skipn 1 r else r in
        match fst (span_digits r1) with
        | [] => None
        | d => Some (e :: sign ++ d, snd (span_digits r1))
        end
      else None
  end.

Definition int_value (lexeme : str) : Z :=
  if startswith lexeme [45] then (- digits_value (skipn 1 lexeme))%Z
  else digits_value lexeme.

Definition scan_number (s : str) : option (pyobj * str) :=
  match match_integer s with
  | None => None
  | Some (integer, r) =>
      let frac := match match_frac r with Some (f, _) => f | None => [] end in
      let r1 := match match_frac r with Some (_, r') => r' | None => r end in
      let exp := match match_exp r1 with Some (e, _) => e | None => [] end in
      let r2 := match match_exp r1 with Some (_, r') => r' | None => r1 end in
      match frac, exp with
      | [], [] => Some (PyInt (int_value integer), r2)
      | _, _ => Some (PyFloat (integer ++ frac ++ exp), r2)
      end
  end.

(** [s[idx:idx + len(p)] == p], returning what follows. *)
Fixpoint strip_prefix (p s : str) : option str :=
  match p, s with
  | [], _ => Some s
  | _ :: _, [] => None
  | a :: p', b :: s' => if a =? b then strip_prefix p' s' else None
  end.

(** The constants [scan_once] recognises by their spelling. *)
Definition scan_constant (s : str) : option (pyobj * str) :=
  match strip_prefix (lit "null") s, strip_prefix (lit "true") s,
        strip_prefix (lit "false") s with
  | Some rest, _, _ => Some (PyNone, rest)
  | _, Some rest, _ => Some (PyBool true, rest)
  | _, _, Some rest => Some (PyBool false, rest)
  | None, None, None => None
  end.

Definition scan_float_constant (s : str) : option (pyobj * str) :=
  match strip_prefix (lit "NaN") s, strip_prefix (lit "Infinity") s,
        strip_prefix (lit "-Infinity") s with
  | Some rest, _, _ => Some (PyFloat (lit "NaN"), rest)
  | _, Some rest, _ => Some (PyFloat (lit "Infinity"), rest)
  | _, _, Some rest => Some (PyFloat (lit "-Infinity"), rest)
  | None, None, None => None
  end.

(** What [scan_once] does on anything but a string, an object or an
    array: [null], [true], [false], then a number, then [NaN],
    [Infinity], [-Infinity]. *)
Definition scan_scalar (s : str) : option (pyobj * str) :=
  match scan_constant s with
  | Some res => Some res
  | None =>
      match scan_number s with
      | Some res => Some res
      | None => scan_float_constant s
      end
  end.

(** [scan_once], [JSONArray] and [JSONObject] (entered after the opening
    bracket or brace, at the first value or key). A fuel of twice the
    length of the text, plus two, is never exhausted
    ([scan_once_fuel]); the interpreter's own recursion limit is not
    modelled. *)
Fixpoint scan_once (fuel : nat) (s : str) : option (pyobj * str) :=
  match fuel with
  | O => None
  | S fuel =>
      match s with
      | [] => None
      | nextchar :: r =>
          if nextchar =? 34 then
            match scanstring (List.length r) [] r with
            | Some (v, rest) => Some (PyStr v, rest)
            | None => None
            end
          else if nextchar =? 123 then
            match skip_ws r with
            | [] => None
            | c :: rest =>
                if c =? 125 then Some (PyDict [], rest)
                else if c =? 34 then JSONObject fuel [] rest
                else None
            end
          else if nextchar =? 91 then
            match skip_ws r with
            | [] => None
            | c :: rest =>
                if c =? 93 then Some (PyList [], rest)
                else JSONArray fuel [] (c :: rest)
            end
          else scan_scalar s
      end
  end

with JSONArray (fuel : nat) (values : list pyobj) (s : str) : option (pyobj * str) :=
  match fuel with
  | O => None
  | S fuel =>
      match scan_once fuel s with
      | None => None
      | Some (value, r) =>
          match skip_ws r with
          | [] => None
          | c :: rest =>
              if c =? 93 then Some (PyList (rev (value :: values)), rest)
              else if c =? 44 then JSONArray fuel (value :: values) (skip_ws rest)
              else None
          end
      end
  end

with JSONObject (fuel : nat) (pairs : list (str * pyobj)) (s : str)
  : option (pyobj * str) :=
  match fuel with
  | O => None
  | S fuel =>
      match scanstring (List.length s) [] s with
      | None => None
      | Some (key, r) =>
          match skip_ws r with
          | [] => None
          | c :: r1 =>
              if c =? 58 then
                match scan_once fuel (skip_ws r1) with
                | None => None
                | Some (value, r2) =>
                    match skip_ws r2 with
                    | [] => None
                    | c2 :: r3 =>
                        if c2 =? 125 then
                          Some (PyDict (rev ((key, value) :: pairs)), r3)
                        else if c2 =? 44 then
                          match skip_ws r3 with
                          | [] => None
                          | c3 :: r4 =>
                              if c3 =? 34
                              then JSONObject fuel ((key, value) :: pairs) r4
                              else None
                          end
                        else None
                    end
                end
              else None
          end
      end
  end.

(** [json.loads(s)]; [None] is [json.JSONDecodeError]. *)
Definition json_loads (s : str) : option pyobj :=
  if startswith s [65279] then None
  else
    match scan_once (2 * List.length s + 2) (skip_ws s) with
    | None => None
    | Some (obj, rest) =>
        match skip_ws rest with
        | [] => Some obj
        | _ :: _ => None
        end
    end.

(** [d.get(key)] on a dict built from [pairs]: the last pair wins. *)
Fixpoint dict_get (d : list (str * pyobj)) (key : str) (default : pyobj) : pyobj :=
  match d with
  | [] => default
  | (k, v) :: r => dict_get r key (if str_eqb k key then v else default)
  end.

(** [obj == s] for a string [s]. *)
Definition eq_str (obj : pyobj) (s : str) : bool :=
  match obj with
  | PyStr v => str_eqb v s
  | _ => false
  end.

Definition quoted (s : string) : str := [34] ++ lit s ++ [34].

(** [json.dumps({'type': 'unread_count', 'count': unread_count})] *)
Definition dumps_unread_count (unread_count : nat) : str :=
  lit "{" ++ quoted "type" ++ lit ": " ++ quoted "unread_count" ++ lit ", "
  ++ quoted "count" ++ lit ": " ++ str_of_N (N.of_nat unread_count) ++ lit "}".

(** ** The WebSocket consumer (core/consumers.py) *)

Module NotificationConsumer.
Record t := mk {
  user : User.t;
  group_name : str
}.

Inductive Exception := AttributeError.

(** What a handler did: the text frames it sent, or the exception it
    left uncaught (which ends the consumer and its connection). *)
Inductive Outcome :=
| Sent (frames : list str)
| Raised (e : Exception).

Inductive Handshake :=
| Closed
| Accepted (self : t) (frames : list str).

(** [get_unread_count] *)
Definition get_unread_count (st : State) (self : t) : nat :=
  List.length (filter (unread (user self)) (notifications st)).

(** [connect]: [scope_user] is [None] when the scope holds an
    unauthenticated user. *)
Definition connect (st : State) (scope_user : option User.t) : Handshake :=
  match scope_user with
  | None => Closed
  | Some u =>
      let self := mk u (lit "notifications_" ++ str_of_N (User.id u)) in
      let unread_count := get_unread_count st self in
      Accepted self [dumps_unread_count unread_count]
  end.

(** [receive] *)
Definition receive (st : State) (self : t) (text_data : str) : Outcome :=
  match json_loads text_data with
  | None => Sent []
  | Some data =>
      match data with
      | PyDict d =>
          let message_type := dict_get d (lit "type") PyNone in
          if eq_str message_type (lit "get_unread_count") then
            let unread_count := get_unread_count st self in
            Sent [dumps_unread_count unread_count]
          else Sent []
      | _ => Raised AttributeError
      end
  end.
End NotificationConsumer.

(** The request a client sends to refresh its badge:
    [{"type": "get_unread_count"}]. *)
Definition get_unread_count_request : str :=
  lit "{" ++ quoted "type" ++ lit ": " ++ quoted "get_unread_count" ++ lit "}".

(** ** Reading a view's result *)

Definition new_state (r : Response) : State := fst (fst r).
Definition flash (r : Response) : list Message := snd (fst r).
Definition response (r : Response) : HttpResponse := snd r.

Definition is_error (m : Message) : bool :=
  match fst m with ERROR => true | _ => false end.

Definition is_success (m : Message) : bool :=
  match fst m with SUCCESS => true | _ => false end.

(** The three ways of submitting a ledger entry. *)
Inductive Submission := Validate | Reject | Comment.

Definition submit (k : Submission)
  : datetime.t -> State -> HttpRequest -> N -> Response :=
  match k with
  | Validate => validate_action
  | Reject => reject_action
  | Comment => comment_action
  end.

(** The edit is refused when the view flashes an error. *)
Definition edit_refused (r : Response) : bool := existsb is_error (flash r).

(** The unread count the specification describes: the number of the
    user's notifications whose read flag is false. *)
Fixpoint spec_unread_count_in (l : list Notification.t) (u : User.t) : nat :=
  match l with
  | [] => O
  | n :: r =>
      if (Notification.destinataire n).(User.id) =? User.id u
      then if Notification.lue n then spec_unread_count_in r u
           else S (spec_unread_count_in r u)
      else spec_unread_count_in r u
  end.

Definition spec_unread_count (st : State) (u : User.t) : nat :=
  spec_unread_count_in (notifications st) u.

(** The notifications a user received among [l]. *)
Definition received (u : User.t) (l : list Notification.t) : list Notification.t :=
  filter (fun n => User.eqb (Notification.destinataire n) u) l.

(** Who is notified of a new action, according to the specification. *)
Definition spec_recipient (instance : Action.t) (u : User.t) : bool :=
  User.role_eqb (User.role u) User.admin && User.is_validated u
  && negb (User.eqb u (Action.auteur instance)).

(** What every notification of the new-action fan-out looks like. *)
Definition new_action_notification (instance : Action.t) (n : Notification.t) : Prop :=
  Notification.type n = Notification.T_nouvelle_action
  /\ Notification.message n = new_action_message instance
  /\ Notification.action n = Some instance
  /\ Notification.validation n = None
  /\ Notification.lue n = false.


(** A comment that is empty or made of whitespace only. *)
Definition blank (s : str) : bool := forallb isspace s.

(** ** A sample deployment *)

Module Sample.
Definition alice := User.mk 1 (lit "alice") User.user true.
Definition bob := User.mk 2 (lit "bob") User.admin true.
Definition carol := User.mk 3 (lit "carol") User.admin true.
Definition dave := User.mk 4 (lit "dave") User.validator true.
Definition erin := User.mk 5 (lit "erin") User.admin false.

Definition t0 := datetime.mk 2025 1 15 8 0 0 0.
Definition t1 := datetime.mk 2025 1 15 9 30 0 0.
Definition t2 := datetime.mk 2025 1 15 10 45 12 500.
Definition t3 := datetime.mk 2025 1 15 11 0 0 0.
Definition closing := datetime.mk 2025 1 16 8 0 0 0.

Definition service1 := Service.mk 1 alice t0 closing Service.ouvert.
Definition service2 := Service.mk 2 bob t0 closing Service.ouvert.

Definition action1 := Action.mk 1 alice service1 (lit "Pompe P3 en panne") t0.
Definition action2 := Action.mk 2 bob service2 (lit "Graissage du convoyeur") t0.

Definition st0 : State :=
  {| users := [alice; bob; carol; dave; erin];
     services := [service1; service2];
     actions := [action1; action2];
     validations := []; validation_seq := 0;
     notifications := []; notification_seq := 0;
     channel_layer := [] |}.

Definition get (u : User.t) : HttpRequest :=
  {| user := Some u; method := lit "GET"; POST := [] |}.

Definition post (u : User.t) (commentaire : str) : HttpRequest :=
  {| user := Some u; method := lit "POST";
     POST := [(lit "commentaire", commentaire)] |}.

(** Bob validates action 1. *)
Definition st_validated : State :=
  new_state (validate_action t1 st0 (get bob) 1).

(** Carol rejects it within the same clock reading. *)
Definition st_tie : State :=
  new_state (reject_action t1 st_validated (post carol (lit "Incomplet")) 1).

(** Carol rejects it later. *)
Definition st_rejected : State :=
  new_state (reject_action t2 st_validated (post carol (lit "Incomplet")) 1).

(** Carol comments on the validated action. *)
Definition st_commented : State :=
  new_state (comment_action t2 st_validated (post carol (lit "Voir rapport 42")) 1).

(** Bob validates his own action 2. *)
Definition st_self : State :=
  new_state (validate_action t1 st0 (get bob) 2).

Definition consumer_alice : NotificationConsumer.t :=
  NotificationConsumer.mk alice (lit "notifications_1").
End Sample.

(** ** Further operations of the models, the views and the admin *)

(** [Service.is_expired] *)
Definition Service_is_expired (now : datetime.t) (self : Service.t) : bool :=
  datetime.gtb now (Service.date_fermeture self).

(** [Action.objects.all()], in the default order of the model
    ([ordering = ['-date_creation']]). *)
Definition by_date_creation_desc (x y : Action.t) : bool :=
  datetime.leb (Action.date_creation y) (Action.date_creation x).

Definition Action_objects_all (st : State) : list Action.t :=
  order_by by_date_creation_desc (actions st).

(** What a read-only view answers: the flashed messages, the response
    and, when a template is rendered, the part of its context modelled
    here. *)
Definition Page (C : Type) := (list Message * HttpResponse * option C)%type.

(** [pending_validations]; the context holds [pending_actions] and
    [total_count]. *)
Definition pending_validations (st : State) (request : HttpRequest)
  : Page (list Action.t * nat) :=
  match user request with
  | None => ([], redirect "login", None)
  | Some request_user =>
      if negb (User.role_eqb (User.role request_user) User.admin) then
        ([(ERROR, lit "Seuls les administrateurs peuvent accéder à cette page.")],
         redirect "dashboard", None)
      else
        let actions := Action_objects_all st in
        let pending_actions :=
          filter (fun action =>
                    Validation.statut_eqb (validation_status st action)
                      Validation.en_attente) actions in
        ([], render "validations/pending.html",
         Some (pending_actions, List.length pending_actions))
  end.

(** [validation_history]; the context holds [action] and [validations]. *)
Definition validation_history (st : State) (request : HttpRequest) (action_id : N)
  : Page (Action.t * list Validation.t) :=
  match user request with
  | None => ([], redirect "login", None)
  | Some request_user =>
      match Action_objects_get st action_id with
      | None => ([(ERROR, lit "Action introuvable.")], redirect "dashboard", None)
      | Some action =>
          if negb (User.eqb (Action.auteur action) request_user)
             && negb (User.role_eqb (User.role request_user) User.admin)
          then
            ([(ERROR, lit "Vous n'avez pas accès à cet historique.")],
             redirect "dashboard", None)
          else
            let validations := get_validation_history st action in
            ([], render "validations/history.html", Some (action, validations))
      end
  end.

(** [notification.lue = True] on a loaded instance. *)
Definition set_lue (n : Notification.t) (lue : bool) : Notification.t :=
  Notification.mk (Notification.id n) (Notification.destinataire n)
    (Notification.type n) (Notification.message n) lue (Notification.date n)
    (Notification.action n) (Notification.validation n).

(** [mark_all_notifications_read]: the [update] returns the number of
    rows it matched. *)
Definition mark_all_notifications_read (st : State) (request : HttpRequest) : Response :=
  login_required st request (fun request_user =>
    let updated := List.length (filter (unread request_user) (notifications st)) in
    let rows :=
      map (fun n => if unread request_user n then set_lue n true else n)
        (notifications st) in
    (set_notifications st rows (notification_seq st),
     [(SUCCESS, str_of_N (N.of_nat updated)
                  ++ lit " notification(s) marquée(s) comme lue(s).")],
     redirect "notifications_list")).

(** What the two views on one notification answer: [redirect(to)],
    [Http404] from [get_object_or_404], or the [MultipleObjectsReturned]
    that [get] raises when several rows match. *)
Inductive NotificationResponse :=
| redirect_to (to : str)
| not_found
| MultipleObjectsReturned.

(** [Notification.objects.filter(id=notif_id, destinataire=user)] *)
Definition own_notifications (st : State) (request_user : User.t) (notif_id : N)
  : list Notification.t :=
  filter (fun n => (Notification.id n =? notif_id)
                   && User.eqb (Notification.destinataire n) request_user)
    (notifications st).

(** [notification.save()] on a loaded row: the row of that primary key
    takes the values of the instance. *)
Definition Notification_save (st : State) (n : Notification.t) : State :=
  set_notifications st
    (map (fun row => if Notification.id row =? Notification.id n then n else row)
       (notifications st))
    (notification_seq st).

(** [notification.delete()] *)
Definition Notification_delete (st : State) (n : Notification.t) : State :=
  set_notifications st
    (filter (fun row => negb (Notification.id row =? Notification.id n))
       (notifications st))
    (notification_seq st).

(** [mark_notification_read]; [GET] is the query string of the request. *)
Definition mark_notification_read (st : State) (request : HttpRequest)
    (GET : list (str * str)) (notif_id : N)
  : State * list Message * NotificationResponse :=
  match user request with
  | None => (st, [], redirect_to (lit "login"))
  | Some request_user =>
      match own_notifications st request_user notif_id with
      | [] => (st, [], not_found)
      | [notification] =>
          let notification := set_lue notification true in
          let st1 := Notification_save st notification in
          let next_url := QueryDict_get GET (lit "next") (lit "notifications_list") in
          match Notification.action notification with
          | Some _ => (st1, [], redirect_to (lit "global_actions_view"))
          | None => (st1, [], redirect_to next_url)
          end
      | _ :: _ :: _ => (st, [], MultipleObjectsReturned)
      end
  end.

(** [delete_notification] *)
Definition delete_notification (st : State) (request : HttpRequest) (notif_id : N)
  : State * list Message * NotificationResponse :=
  match user request with
  | None => (st, [], redirect_to (lit "login"))
  | Some request_user =>
      match own_notifications st request_user notif_id with
      | [] => (st, [], not_found)
      | [notification] =>
          (Notification_delete st notification,
           [(SUCCESS, lit "Notification supprimée.")],
           redirect_to (lit "notifications_list"))
      | _ :: _ :: _ => (st, [], MultipleObjectsReturned)
      end
  end.

(** The admin action [validate_actions] (core/admin.py): [queryset] is
    the list of the selected actions; the loop carries the store, the
    count and the warnings. *)
Definition validate_actions_step (now : datetime.t) (request_user : User.t)
    (acc : State * nat * list str) (action : Action.t) : State * nat * list str :=
  let '(st, count, warnings) := acc in
  if Validation.statut_eqb (validation_status st action) Validation.valide then acc
  else
    let warnings :=
      if User.eqb (Action.auteur action) request_user then
        warnings ++ [lit "⚠️ Auto-validation détectée pour l'action #"
                       ++ str_of_N (Action.id action)]
      else warnings in
    (Validation_objects_create now st action request_user Validation.valide None,
     S count, warnings).

Definition validate_actions (now : datetime.t) (st : State) (request_user : User.t)
    (queryset : list Action.t) : State * list Message :=
  let '(st1, count, warnings) :=
    fold_left (validate_actions_step now request_user) queryset (st, O, []) in
  (st1,
   (SUCCESS, str_of_N (N.of_nat count) ++ lit " action(s) validée(s) avec succès.")
   :: map (fun warning => (WARNING, warning)) warnings).

(** The previews of the admin lists: [get_message_preview] (80
    characters) and [get_description_preview] (50). *)
Definition preview (limit : nat) (text : str) : str :=
  if (limit <? List.length text)%nat then firstn limit text ++ lit "..." else text.

Definition get_message_preview (obj : Notification.t) : str :=
  preview 80 (Notification.message obj).

Definition get_description_preview (obj : Action.t) : str :=
  preview 50 (Action.description obj).

(** The well-formed stores: primary keys at most the counter and
    pairwise distinct, for the ledger and for the notifications. *)
Definition keys_ok (ids : list N) (seq : N) : Prop :=
  NoDup ids /\ Forall (fun pk => pk <= seq) ids.

Definition store_ok (st : State) : Prop :=
  keys_ok (map Validation.id (validations st)) (validation_seq st)
  /\ keys_ok (map Notification.id (notifications st)) (notification_seq st).

(** Every rejection of the ledger carries a comment. *)
Definition rejections_commented (st : State) : Prop :=
  Forall (fun v => Validation.statut v = Validation.refuse ->
                   exists c, Validation.commentaire v = Some c
                             /\ c <> [] /\ strip c = c)
    (validations st).

(** The ledger entries of an action are all strictly older than [now]. *)
Definition clock_ahead (now : datetime.t) (st : State) (a : Action.t) : Prop :=
  Forall (fun v => datetime.ltb (Validation.date_validation v) now = true)
    (Action_validations st a).

(** The outcome a submission writes to the ledger. *)
Definition recorded_outcome (k : Submission) (st : State) (a : Action.t)
  : Validation.STATUT :=
  match k with
  | Validate => Validation.valide
  | Reject => Validation.refuse
  | Comment => validation_status st a
  end.

(** The notification type that goes with an outcome. *)
Definition type_of_outcome (s : Validation.STATUT) : Notification.TYPE :=
  match s with
  | Validation.valide => Notification.T_validation
  | Validation.refuse => Notification.T_refus
  | Validation.en_attente => Notification.T_commentaire
  end.

(** The decimal digits of a number, most significant first, as
    characters. *)
Fixpoint uint_chars (d : Decimal.uint) : str :=
  match d with
  | Decimal.Nil => []
  | Decimal.D0 d => 48 :: uint_chars d
  | Decimal.D1 d => 49 :: uint_chars d
  | Decimal.D2 d => 50 :: uint_chars d
  | Decimal.D3 d => 51 :: uint_chars d
  | Decimal.D4 d => 52 :: uint_chars d
  | Decimal.D5 d => 53 :: uint_chars d
  | Decimal.D6 d => 54 :: uint_chars d
  | Decimal.D7 d => 55 :: uint_chars d
  | Decimal.D8 d => 56 :: uint_chars d
  | Decimal.D9 d => 57 :: uint_chars d
  end.

(** A consumer receives the events sent to the group it joined. *)
Definition subscribed (self : NotificationConsumer.t) (ev : GroupEvent) : bool :=
  str_eqb (NotificationConsumer.group_name self) (ev_group ev).

(** A character [scanstring] reads as itself: not a quote, not a
    backslash, not a control character. *)
Definition plain (c : char) : bool :=
  negb (c =? 34) && negb (c =? 92) && negb (c <? 32).

(** What may follow a number: the end of the text or a character that
    continues neither the digits, nor a fraction, nor an exponent. *)
Definition ends_number (rest : str) : bool :=
  match rest with
  | [] => true
  | c :: _ => negb (is_digit c || (c =? 46) || (c =? 101) || (c =? 69))
  end.

(** The object an unread-count frame stands for. *)
Definition unread_count_object (unread_count : nat) : pyobj :=
  PyDict [(lit "type", PyStr (lit "unread_count"));
          (lit "count", PyInt (Z.of_nat unread_count))].

(** [Notification.get_url]: a model instance is always true, so the
    tests are on the foreign keys being set. *)
Definition Notification_get_url (self : Notification.t) : str :=
  match Notification.action self with
  | Some action => lit "/consultation/actions/?action=" ++ str_of_N (Action.id action)
  | None =>
      match Notification.validation self with
      | Some validation =>
          lit "/validations/history/"
          ++ str_of_N (Action.id (Validation.action validation)) ++ lit "/"
      | None => lit "/notifications/"
      end
  end.

(** The notification leads to the consultation page. *)
Definition opens_consultation (n : Notification.t) : bool :=
  startswith (Notification_get_url n) (lit "/consultation/actions/?action=").

(** * Properties *)

Arguments lit : simpl never.
Arguments str_of_N : simpl never.
Arguments datetime.strftime_fr : simpl never.
Arguments datetime.isoformat : simpl never.

(** ** The string and date helpers at work *)

Example lit_decodes_utf8 : lit "validé" = [118; 97; 108; 105; 100; 233].
Proof. reflexivity. Qed.

Example strip_both_ends : strip (lit "  à revoir ") = lit "à revoir".
Proof. reflexivity. Qed.

Example strftime_fr_pads :
  datetime.strftime_fr (datetime.mk 2025 3 7 9 5 0 0) = lit "07/03/2025 à 09:05".
Proof. vm_compute. reflexivity. Qed.

Example isoformat_microseconds :
  datetime.isoformat Sample.t2 = lit "2025-01-15T10:45:12.000500".
Proof. vm_compute. reflexivity. Qed.

Example json_loads_object :
  json_loads (lit " {" ++ quoted "type" ++ lit " : " ++ quoted "ping" ++ lit ", "
              ++ quoted "n" ++ lit ": [1, -2, null]} ")
  = Some (PyDict [(lit "type", PyStr (lit "ping"));
                  (lit "n", PyList [PyInt 1; PyInt (-2); PyNone])]).
Proof. vm_compute. reflexivity. Qed.

Example json_loads_trailing_comma : json_loads (lit "[1,]") = None.
Proof. vm_compute. reflexivity. Qed.

(** ** Order on datetimes *)

Module datetime_facts.
Import datetime.

Lemma lexcmp_refl a : lexcmp a a = Eq.
Proof.
  induction a as [|x a IH]; simpl; [reflexivity|].
  rewrite N.compare_refl. exact IH.
Qed.

Lemma lexcmp_eq a : forall b, lexcmp a b = Eq -> a = b.
Proof.
  induction a as [|x a IH]; intros [|y b]; simpl; try discriminate; auto.
  destruct (N.compare_spec x y) as [Hxy|Hxy|Hxy]; try discriminate.
  intros Hr. subst. f_equal. auto.
Qed.

Lemma lexcmp_opp a : forall b, lexcmp b a = CompOpp (lexcmp a b).
Proof.
  induction a as [|x a IH]; intros [|y b]; simpl; auto.
  rewrite (N.compare_antisym x y).
  destruct (x ?= y); simpl; auto.
Qed.

Lemma lexcmp_le_trans a : forall b c,
  lexcmp a b <> Gt -> lexcmp b c <> Gt -> lexcmp a c <> Gt.
Proof.
  induction a as [|x a IH]; intros [|y b] [|z c]; simpl; try congruence.
  destruct (N.compare_spec x y) as [Hxy|Hxy|Hxy];
    destruct (N.compare_spec y z) as [Hyz|Hyz|Hyz];
    destruct (N.compare_spec x z) as [Hxz|Hxz|Hxz];
    subst; try lia; try congruence; eauto.
Qed.

Lemma astuple_inj a b : astuple a = astuple b -> a = b.
Proof.
  destruct a, b; unfold astuple; simpl. intros H.
  injection H as -> -> -> -> -> -> ->. reflexivity.
Qed.

Lemma leb_refl a : leb a a = true.
Proof. unfold leb, compare. now rewrite lexcmp_refl. Qed.

Lemma leb_trans a b c : leb a b = true -> leb b c = true -> leb a c = true.
Proof.
  unfold leb, compare. intros H1 H2.
  assert (lexcmp (astuple a) (astuple c) <> Gt).
  { apply lexcmp_le_trans with (astuple b).
    - destruct (lexcmp (astuple a) (astuple b)); congruence.
    - destruct (lexcmp (astuple b) (astuple c)); congruence. }
  destruct (lexcmp (astuple a) (astuple c)); congruence.
Qed.

Lemma leb_false_ltb a b : leb a b = false -> ltb b a = true.
Proof.
  unfold leb, ltb, compare. rewrite (lexcmp_opp (astuple a) (astuple b)).
  destruct (lexcmp (astuple a) (astuple b)); simpl; congruence.
Qed.

Lemma ltb_leb a b : ltb a b = true -> leb a b = true.
Proof. unfold leb, ltb. destruct (compare a b); congruence. Qed.

Lemma eqb_leb a b : eqb a b = true -> leb a b = true.
Proof. unfold leb, eqb. destruct (compare a b); congruence. Qed.

Lemma ltb_false_leb a b : ltb a b = false -> leb b a = true.
Proof.
  unfold leb, ltb, compare. rewrite (lexcmp_opp (astuple a) (astuple b)).
  destruct (lexcmp (astuple a) (astuple b)); simpl; congruence.
Qed.

Lemma leb_antisym a b : leb a b = true -> leb b a = true -> a = b.
Proof.
  unfold leb, compare. rewrite (lexcmp_opp (astuple a) (astuple b)).
  destruct (lexcmp (astuple a) (astuple b)) eqn:E; simpl; try congruence.
  intros _ _. apply astuple_inj, lexcmp_eq, E.
Qed.

Lemma gtb_leb a b : gtb a b = negb (leb a b).
Proof.
  unfold gtb, ltb, leb, compare. rewrite (lexcmp_opp (astuple a) (astuple b)).
  destruct (lexcmp (astuple a) (astuple b)); reflexivity.
Qed.
End datetime_facts.

(** ** The latest ledger entry *)

Section Ledger.
Import datetime_facts.

Abbreviation date := Validation.date_validation.

Lemma first_order_by_cons {A} (before : A -> A -> bool) x r :
  first (order_by before (x :: r)) =
  match first (order_by before r) with
  | None => Some x
  | Some y => if before x y then Some x else Some y
  end.
Proof.
  simpl. destruct (order_by before r) as [|y l]; simpl; [reflexivity|].
  destruct (before x y); reflexivity.
Qed.

Lemma order_by_nil {A} (before : A -> A -> bool) l :
  order_by before l = [] -> l = [].
Proof.
  destruct l as [|x r]; simpl; [reflexivity|].
  destruct (order_by before r) as [|y l]; simpl; [discriminate|].
  destruct (before x y); discriminate.
Qed.

(** The head of the descending order is the first entry, in scan
    order, among those with the greatest timestamp. *)
Lemma latest_split (l : list Validation.t) :
  match first (order_by by_date_validation_desc l) with
  | None => l = []
  | Some e =>
      exists l1 l2, l = l1 ++ e :: l2
        /\ (forall e', In e' l1 -> datetime.ltb (date e') (date e) = true)
        /\ (forall e', In e' l2 -> datetime.leb (date e') (date e) = true)
  end.
Proof.
  induction l as [|x r IH].
  - reflexivity.
  - rewrite first_order_by_cons.
    destruct (first (order_by by_date_validation_desc r)) as [y|] eqn:E.
    + destruct IH as (l1 & l2 & -> & H1 & H2).
      unfold by_date_validation_desc.
      destruct (datetime.leb (date y) (date x)) eqn:Hyx.
      * exists [], (l1 ++ y :: l2). split; [reflexivity|]. split.
        { intros e' []. }
        intros e' Hin. apply in_app_or in Hin.
        destruct Hin as [Hin|[<-|Hin]]; auto.
        -- apply leb_trans with (date y); auto using ltb_leb.
        -- apply leb_trans with (date y); auto.
      * exists (x :: l1), l2. split; [reflexivity|]. split; auto.
        intros e' [<-|Hin]; auto using leb_false_ltb.
    + subst r. exists [], []. split; [reflexivity|].
      split; intros e' [].
Qed.

Lemma spec_key_ltb_true a b :
  spec_key_ltb a b = true -> datetime.leb (date a) (date b) = true.
Proof.
  unfold spec_key_ltb. intros H. apply orb_true_iff in H.
  destruct H as [H|H]; [now apply ltb_leb|].
  apply andb_true_iff in H. now apply eqb_leb.
Qed.

Lemma spec_key_ltb_false a b :
  spec_key_ltb a b = false -> datetime.leb (date b) (date a) = true.
Proof.
  unfold spec_key_ltb. intros H. apply orb_false_iff in H.
  now apply ltb_false_leb.
Qed.

Lemma spec_latest_fold (l : list Validation.t) : forall acc,
  match
    fold_left (fun best v =>
                 match best with
                 | None => Some v
                 | Some b => if spec_key_ltb b v then Some v else Some b
                 end) l acc
  with
  | None => acc = None /\ l = []
  | Some e =>
      (acc = Some e \/ In e l)
      /\ (forall a, acc = Some a -> datetime.leb (date a) (date e) = true)
      /\ (forall e', In e' l -> datetime.leb (date e') (date e) = true)
  end.
Proof.
  induction l as [|x r IH]; intros acc; simpl.
  - destruct acc as [e|]; auto.
    split; [now left|]. split; [|intros e' []].
    intros a [= ->]. apply leb_refl.
  - match goal with |- context [fold_left ?f r ?acc'] =>
      specialize (IH acc'); destruct (fold_left f r acc') as [e|] end.
    + destruct IH as (Hin & Hacc & Hall).
      destruct acc as [b|].
      * destruct (spec_key_ltb b x) eqn:Hk.
        -- split; [right; destruct Hin as [[= ->]|Hin]; auto|].
           split.
           ++ intros a [= ->]. apply leb_trans with (date x); auto.
              now apply spec_key_ltb_true.
           ++ intros e' [<-|He']; auto.
        -- split; [destruct Hin as [Hin|Hin]; auto|].
           split; [auto|].
           intros e' [<-|He']; auto.
           apply leb_trans with (date b); auto.
           now apply spec_key_ltb_false.
      * split; [right; destruct Hin as [[= ->]|Hin]; auto|].
        split; [discriminate|].
        intros e' [<-|He']; auto.
    + destruct IH as [IH _]. destruct acc as [b|]; [|discriminate].
      destruct (spec_key_ltb b x); discriminate.
Qed.

Lemma NoDup_map_eq {A B} (f : A -> B) (l : list A) a b :
  NoDup (map f l) -> In a l -> In b l -> f a = f b -> a = b.
Proof.
  induction l as [|x r IH]; simpl; [intros _ []|].
  intros Hnd Ha Hb Hf. inversion Hnd as [|? ? Hx Hr]; subst.
  destruct Ha as [->|Ha], Hb as [->|Hb]; auto.
  - exfalso. apply Hx. rewrite Hf. now apply in_map.
  - exfalso. apply Hx. rewrite <- Hf. now apply in_map.
Qed.
End Ledger.

(** ** C1: the derived status *)

(** C1, as the code has it. [validation_status] is [en_attente] on an
    empty ledger; otherwise it is the outcome of a ledger entry whose
    creation timestamp is the latest: every entry scanned before it is
    strictly older and no entry scanned after it is newer. The id plays
    no part in the order; when no two entries of the ledger share a
    timestamp, this is the entry with the greatest (timestamp, id) pair. *)
Theorem validation_status_latest_timestamp (st : State) (a : Action.t) :
  let ledger := Action_validations st a in
  match ledger with
  | [] => validation_status st a = Validation.en_attente
  | _ :: _ =>
      exists l1 e l2,
        ledger = l1 ++ e :: l2
        /\ validation_status st a = Validation.statut e
        /\ (forall e', In e' l1 ->
              datetime.ltb (Validation.date_validation e')
                (Validation.date_validation e) = true)
        /\ (forall e', In e' l2 ->
              datetime.leb (Validation.date_validation e')
                (Validation.date_validation e) = true)
  end
  /\ (NoDup (map Validation.date_validation ledger) ->
      validation_status st a = spec_current_status st a).
Proof.
  intros ledger. unfold validation_status, spec_current_status, latest_validation.
  fold ledger.
  pose proof (latest_split ledger) as Hcode.
  pose proof (spec_latest_fold ledger None) as Hspec.
  fold (spec_latest ledger) in Hspec.
  destruct (first (order_by by_date_validation_desc ledger)) as [e|] eqn:E.
  - destruct Hcode as (l1 & l2 & Hl & H1 & H2). split.
    + destruct ledger as [|x r] eqn:El; [destruct l1; discriminate|].
      exists l1, e, l2. auto.
    + intros Hnd.
      destruct (spec_latest ledger) as [e0|].
      * destruct Hspec as ([[=]|Hin0] & _ & Hmax).
        assert (Hin : In e ledger) by (rewrite Hl; apply in_elt).
        assert (Hle : datetime.leb (Validation.date_validation e0)
                        (Validation.date_validation e) = true).
        { rewrite Hl in Hin0. apply in_app_or in Hin0.
          destruct Hin0 as [Hin0|[<-|Hin0]]; auto using datetime_facts.ltb_leb,
            datetime_facts.leb_refl. }
        f_equal. eapply NoDup_map_eq; eauto.
        apply datetime_facts.leb_antisym; auto.
      * destruct Hspec as [_ Hnil]. rewrite Hnil in Hl. destruct l1; discriminate.
  - rewrite Hcode. simpl. split; reflexivity.
Qed.

(** With distinct timestamps the code and the specification agree:
    after Bob's validation and Carol's later rejection the status is
    [refuse]. *)
Lemma validation_status_latest_timestamp_witness :
  validation_status Sample.st_rejected Sample.action1
  = spec_current_status Sample.st_rejected Sample.action1.
Proof.
  apply (proj2 (validation_status_latest_timestamp Sample.st_rejected Sample.action1)).
  vm_compute. repeat constructor; simpl; intuition discriminate.
Defined.

(** C1 as stated fails: Bob validates action 1 and Carol rejects it
    within the same clock reading. The rejection has the greater id, so
    the (timestamp, id) order makes the action rejected; the code orders
    on the timestamp alone and reports it validated. *)
Lemma validation_status_ignores_id :
  Action_validations Sample.st_tie Sample.action1
  = [ Validation.mk 1 Sample.action1 Sample.bob Validation.valide None Sample.t1;
      Validation.mk 2 Sample.action1 Sample.carol Validation.refuse
        (Some (lit "Incomplet")) Sample.t1 ]
  /\ validation_status Sample.st_tie Sample.action1 = Validation.valide
  /\ spec_current_status Sample.st_tie Sample.action1 = Validation.refuse.
Proof. vm_compute. repeat split. Qed.

(** On equal timestamps the answer follows the scan order of the rows,
    which the (timestamp, id) pairs do not determine. *)
Lemma validation_status_follows_scan_order :
  let swapped :=
    set_validations Sample.st_tie (rev (validations Sample.st_tie)) 2 in
  validation_status swapped Sample.action1 = Validation.refuse
  /\ spec_current_status swapped Sample.action1 = Validation.refuse.
Proof. vm_compute. split; reflexivity. Qed.

(** ** Saving a ledger entry *)

Lemma str_eqb_refl (s : str) : str_eqb s s = true.
Proof. unfold str_eqb. destruct (list_eq_dec N.eq_dec s s); congruence. Qed.

Lemma str_eqb_eq (a b : str) : str_eqb a b = true -> a = b.
Proof. unfold str_eqb. destruct (list_eq_dec N.eq_dec a b); congruence. Qed.

Lemma create_validation_notification_validations now st instance created :
  validations (create_validation_notification now st instance created) = validations st
  /\ validation_seq (create_validation_notification now st instance created)
     = validation_seq st
  /\ actions (create_validation_notification now st instance created) = actions st
  /\ users (create_validation_notification now st instance created) = users st.
Proof.
  unfold create_validation_notification.
  destruct created; [|auto].
  destruct (User.eqb _ _); [auto|].
  destruct (validation_message instance) as [ty msg]. simpl. auto.
Qed.

Lemma Validation_save_new_validations now st action validateur statut commentaire :
  validations (Validation_save_new now st action validateur statut commentaire)
  = validations st
    ++ [Validation.mk (validation_seq st + 1) action validateur statut commentaire now].
Proof.
  unfold Validation_save_new.
  now rewrite (proj1 (create_validation_notification_validations _ _ _ _)).
Qed.

Lemma app_singleton_neq {A} (l : list A) (x : A) : l ++ [x] <> l.
Proof.
  intros H. apply (f_equal (@List.length A)) in H.
  rewrite length_app in H. simpl in H. lia.
Qed.

(** ** C2: who may submit *)


(** The views are stricter than the capability: the validator role is
    refused as well, only administrators write to the ledger. *)
Lemma validator_role_refused (k : Submission) now st request action_id u :
  user request = Some u -> User.role u = User.validator ->
  new_state (submit k now st request action_id) = st.
Proof.
  intros Hu Hr.
  destruct k; unfold submit, validate_action, reject_action, comment_action,
    login_required; rewrite Hu, Hr; reflexivity.
Qed.

(** ** C3: rejecting without a comment *)

Lemma lstrip_blank (s : str) : blank s = true -> lstrip s = [].
Proof.
  unfold blank. induction s as [|c r IH]; simpl; [reflexivity|].
  intros H. apply andb_true_iff in H. destruct H as [Hc Hr].
  rewrite Hc. auto.
Qed.

Lemma strip_blank (s : str) : blank s = true -> strip s = [].
Proof. intros H. unfold strip. now rewrite (lstrip_blank s H). Qed.

(** C3. A rejection whose comment is missing, empty or made of
    whitespace only leaves the whole store (ledger, notifications,
    channel layer) as it was and flashes no success; an administrator
    posting it for an existing action gets the form back with the error
    'Un commentaire est obligatoire pour refuser une action.', and
    [Validation.clean] refuses a rejection without comment as well. *)
Theorem reject_blank_comment_fails (now : datetime.t) (st : State)
    (request : HttpRequest) (action_id : N) :
  blank (QueryDict_get (POST request) (lit "commentaire") []) = true ->
  let r := reject_action now st request action_id in
  new_state r = st
  /\ (forall m, In m (flash r) -> is_success m = false)
  /\ (forall u a,
        user request = Some u -> User.role u = User.admin ->
        Action_objects_get st action_id = Some a ->
        method request = lit "POST" ->
        r = (st,
             [(ERROR, lit "Un commentaire est obligatoire pour refuser une action.")],
             render "validations/reject.html"))
  /\ (forall u commentaire,
        truthy commentaire = false ->
        Validation_clean Validation.refuse commentaire u
        = Some (lit "Un commentaire est obligatoire pour refuser une action.")).
Proof.
  intros Hblank r. subst r. apply strip_blank in Hblank.
  unfold reject_action, login_required. rewrite Hblank.
  split; [|split; [|split]].
  - destruct (user request) as [u|]; [|reflexivity].
    destruct (negb _); [reflexivity|].
    destruct (Action_objects_get st action_id); [|reflexivity].
    destruct (str_eqb _ _); reflexivity.
  - destruct (user request) as [u|]; [|intros m []].
    destruct (negb _); [intros m [<-|[]]; reflexivity|].
    destruct (Action_objects_get st action_id); [|intros m [<-|[]]; reflexivity].
    destruct (str_eqb _ _); [intros m [<-|[]]; reflexivity|intros m []].
  - intros u a Hu Hr Ha Hm. rewrite Hu, Hr, Ha, Hm, str_eqb_refl. reflexivity.
  - intros u commentaire Hc. unfold Validation_clean. rewrite Hc. reflexivity.
Qed.

(** Carol posts a rejection of action 1 whose comment is three spaces. *)
Lemma reject_blank_comment_fails_witness :
  new_state (reject_action Sample.t1 Sample.st0
               (Sample.post Sample.carol (lit "   ")) 1) = Sample.st0.
Proof.
  apply (reject_blank_comment_fails Sample.t1 Sample.st0
           (Sample.post Sample.carol (lit "   ")) 1).
  reflexivity.
Defined.

(** ** C4 and C8: validating *)

Lemma validate_action_admin now st request action_id u a :
  user request = Some u -> User.role u = User.admin ->
  Action_objects_get st action_id = Some a ->
  validate_action now st request action_id =
  if Validation.statut_eqb (validation_status st a) Validation.valide then
    (st, [(WARNING, lit "Cette action est déjà validée.")],
     redirect "pending_validations")
  else
    (Validation_objects_create now st a u Validation.valide None,
     (if User.eqb (Action.auteur a) u then
        [(WARNING, lit "⚠️ Auto-validation détectée : vous validez votre propre action.")]
      else [])
     ++ [(SUCCESS, lit "Action #" ++ str_of_N (Action.id a) ++ lit " validée avec succès.")],
     redirect "pending_validations").
Proof.
  intros Hu Hr Ha. unfold validate_action, login_required.
  rewrite Hu, Hr, Ha. reflexivity.
Qed.

Lemma self_validation_not_notified now st instance created :
  Validation.is_self_validation instance = true ->
  create_validation_notification now st instance created = st.
Proof.
  unfold Validation.is_self_validation, create_validation_notification.
  intros ->. destruct created; reflexivity.
Qed.

(** C4, as the code has it. When an administrator validates an action
    of their own that is not validated already, the ledger gains the
    entry, the self-validation warning is flashed next to the success
    message, and neither a notification nor a channel message is
    produced; saving any ledger entry whose validator is the author of
    the action leaves the notifications as they were. *)
Theorem self_validation_succeeds_with_warning (now : datetime.t) (st : State)
    (request : HttpRequest) (action_id : N) (u : User.t) (a : Action.t) :
  user request = Some u -> User.role u = User.admin ->
  Action_objects_get st action_id = Some a ->
  User.eqb (Action.auteur a) u = true ->
  validation_status st a <> Validation.valide ->
  let r := validate_action now st request action_id in
  let entry := Validation.mk (validation_seq st + 1) a u Validation.valide None now in
  validations (new_state r) = validations st ++ [entry]
  /\ In (WARNING, lit "⚠️ Auto-validation détectée : vous validez votre propre action.")
        (flash r)
  /\ (exists msg, In (SUCCESS, msg) (flash r))
  /\ notifications (new_state r) = notifications st
  /\ channel_layer (new_state r) = channel_layer st
  /\ response r = redirect "pending_validations"
  /\ (forall statut commentaire,
        notifications (Validation_save_new now st a u statut commentaire)
        = notifications st).
Proof.
  intros Hu Hr Ha Heq Hst r entry. subst r entry.
  rewrite (validate_action_admin now st request action_id Hu Hr Ha).
  destruct (Validation.statut_eqb (validation_status st a) Validation.valide) eqn:E.
  { exfalso. apply Hst. destruct (validation_status st a); try discriminate. reflexivity. }
  assert (Hsave : forall statut commentaire,
            Validation_save_new now st a u statut commentaire
            = set_validations st
                (validations st
                   ++ [Validation.mk (validation_seq st + 1) a u statut commentaire now])
                (validation_seq st + 1)).
  { intros statut commentaire. unfold Validation_save_new.
    apply self_validation_not_notified.
    unfold Validation.is_self_validation. simpl.
    unfold User.eqb in *. now rewrite N.eqb_sym. }
  rewrite Heq. unfold Validation_objects_create, new_state, flash, response.
  simpl fst. simpl snd. rewrite Hsave.
  split; [reflexivity|]. split; [now left|]. split; [eexists; right; now left|].
  split; [reflexivity|]. split; [reflexivity|]. split; [reflexivity|].
  intros statut commentaire. now rewrite Hsave.
Qed.

(** Bob, an administrator, validates his own action 2. *)
Lemma self_validation_succeeds_with_warning_witness :
  validations (new_state (validate_action Sample.t1 Sample.st0 (Sample.get Sample.bob) 2))
  = [Validation.mk 1 Sample.action2 Sample.bob Validation.valide None Sample.t1].
Proof.
  apply (self_validation_succeeds_with_warning Sample.t1 Sample.st0
           (Sample.get Sample.bob) 2 (u := Sample.bob) (a := Sample.action2));
    try reflexivity.
  vm_compute. discriminate.
Defined.

(** C4 as stated fails: when Bob validates his own action 2 a second
    time the view stops at its already-validated check. No ledger entry
    is written and the warning flashed is not the self-validation one. *)
Lemma self_validation_of_validated_action :
  let r := validate_action Sample.t2 Sample.st_self (Sample.get Sample.bob) 2 in
  Action.auteur Sample.action2 = Sample.bob
  /\ validations (new_state r) = validations Sample.st_self
  /\ flash r = [(WARNING, lit "Cette action est déjà validée.")].
Proof. vm_compute. repeat split. Qed.

(** C8, as the code has it. [validate_action] stops on an action whose
    derived status is [valide]: the store is left as it was and the
    warning 'Cette action est déjà validée.' is flashed. The store
    itself does not look at the status: [Validation.objects.create]
    appends the entry it is given whatever the current status is. *)
Theorem revalidation_is_refused_by_the_view (now : datetime.t) (st : State)
    (request : HttpRequest) (action_id : N) (u : User.t) (a : Action.t) :
  user request = Some u -> User.role u = User.admin ->
  Action_objects_get st action_id = Some a ->
  validation_status st a = Validation.valide ->
  validate_action now st request action_id
  = (st, [(WARNING, lit "Cette action est déjà validée.")],
     redirect "pending_validations")
  /\ (forall validateur statut commentaire,
        validations (Validation_objects_create now st a validateur statut commentaire)
        = validations st
          ++ [Validation.mk (validation_seq st + 1) a validateur statut commentaire now]).
Proof.
  intros Hu Hr Ha Hst. split.
  - rewrite (validate_action_admin now st request action_id Hu Hr Ha), Hst.
    reflexivity.
  - intros. apply Validation_save_new_validations.
Qed.

(** Carol validates action 1, which Bob has validated already. *)
Lemma revalidation_is_refused_by_the_view_witness :
  validate_action Sample.t2 Sample.st_validated (Sample.get Sample.carol) 1
  = (Sample.st_validated, [(WARNING, lit "Cette action est déjà validée.")],
     redirect "pending_validations").
Proof.
  apply (revalidation_is_refused_by_the_view Sample.t2 Sample.st_validated
           (Sample.get Sample.carol) 1 (u := Sample.carol) (a := Sample.action1));
    reflexivity.
Defined.

(** C8 as stated fails: action 1 is validated, Carol validates it again,
    and the ledger keeps its single entry. *)
Lemma revalidation_appends_nothing :
  let r := validate_action Sample.t2 Sample.st_validated (Sample.get Sample.carol) 1 in
  validation_status Sample.st_validated Sample.action1 = Validation.valide
  /\ validations Sample.st_validated
     = [Validation.mk 1 Sample.action1 Sample.bob Validation.valide None Sample.t1]
  /\ validations (new_state r) = validations Sample.st_validated.
Proof. vm_compute. repeat split. Qed.

(** ** C5: the message of a validation notification *)

Lemma startswith_app (p r : str) : startswith (p ++ r) p = true.
Proof.
  induction p as [|c p IH]; simpl; [now destruct r|].
  now rewrite N.eqb_refl.
Qed.

Lemma contains_unfold (s sub : str) :
  contains s sub
  = (startswith s sub || match s with [] => false | _ :: r => contains r sub end).
Proof. destruct s; reflexivity. Qed.

Lemma contains_here (p r : str) : contains (p ++ r) p = true.
Proof. rewrite contains_unfold, startswith_app. reflexivity. Qed.

Lemma contains_app_r (pre s sub : str) :
  contains s sub = true -> contains (pre ++ s) sub = true.
Proof.
  intros H. induction pre as [|c pre IH]; simpl; [exact H|].
  rewrite IH. apply orb_true_r.
Qed.

(** For a rejection and for a comment on a pending action the message
    names the validator and ends with the comment as a block of its own. *)
Lemma validation_message_comment_block (instance : Validation.t) (c : str) :
  Validation.statut instance <> Validation.valide ->
  Validation.commentaire instance = Some c -> c <> [] ->
  let message := snd (validation_message instance) in
  contains message (User.username (Validation.validateur instance)) = true
  /\ exists head, message = head ++ nl ++ nl ++ lit "Commentaire : " ++ c.
Proof.
  intros Hs Hc Hne. unfold validation_message. rewrite Hc.
  destruct c as [|c0 c']; [congruence|].
  destruct (Validation.statut instance); try congruence;
    cbn [snd truthy or_empty]; split.
  - rewrite <- !app_assoc. apply contains_here.
  - eexists. reflexivity.
  - rewrite <- !app_assoc. do 3 apply contains_app_r. apply contains_here.
  - eexists. reflexivity.
Qed.

(** For a [valide] entry the message is the same with and without a
    comment. *)
Lemma validation_message_valide (instance : Validation.t) :
  Validation.statut instance = Validation.valide ->
  validation_message instance
  = (Notification.T_validation,
     lit "Votre action du "
     ++ datetime.strftime_fr (Action.date_creation (Validation.action instance))
     ++ lit " a été validée par "
     ++ User.username (Validation.validateur instance) ++ lit ".").
Proof. intros H. unfold validation_message. now rewrite H. Qed.

(** C5 fails on the code: Carol comments on action 1 after Bob has
    validated it. [comment_action] keeps the current status, so the
    ledger entry is a [valide] one carrying her comment, and the
    notification sent to Alice is the validation message, without the
    comment. *)
Theorem comment_on_validated_action_is_dropped :
  let entry :=
    Validation.mk 2 Sample.action1 Sample.carol Validation.valide
      (Some (lit "Voir rapport 42")) Sample.t2 in
  let message := lit "Votre action du 15/01/2025 à 08:00 a été validée par carol." in
  nth_error (validations Sample.st_commented) 1 = Some entry
  /\ validation_message entry = (Notification.T_validation, message)
  /\ nth_error (notifications Sample.st_commented) 1
     = Some (Notification.mk 2 Sample.alice Notification.T_validation message false
               Sample.t2 (Some Sample.action1) (Some entry))
  /\ contains message (lit "carol") = true
  /\ contains message (lit "Voir rapport 42") = false.
Proof. vm_compute. repeat split. Qed.

(** ** C6: the notifications of a new action *)

Section NewAction.
Variables (now : datetime.t) (instance : Action.t).

Lemma notify_admin_loop (l : list User.t) : forall st,
  exists new,
    notifications (fold_left (notify_admin now instance) l st) = notifications st ++ new
    /\ map Notification.destinataire new = l
    /\ Forall (new_action_notification instance) new.
Proof.
  induction l as [|admin l IH]; intros st; simpl.
  - exists []. rewrite app_nil_r. auto.
  - destruct (IH (notify_admin now instance st admin)) as (new & Hn & Hd & Hf).
    exists (Notification.mk (notification_seq st + 1) admin
              Notification.T_nouvelle_action (new_action_message instance) false now
              (Some instance) None :: new).
    split; [|split].
    + rewrite Hn. unfold notify_admin. simpl. now rewrite <- app_assoc.
    + simpl. now rewrite Hd.
    + constructor; [|exact Hf]. repeat split.
Qed.

Lemma filter_eqb_absent (P : User.t -> bool) (u : User.t) (l : list User.t) :
  ~ In (User.id u) (map User.id l) ->
  filter (fun v => User.eqb v u) (filter P l) = [].
Proof.
  induction l as [|x r IH]; simpl; [reflexivity|].
  intros Hn. destruct (P x); simpl.
  - unfold User.eqb at 1. destruct (N.eqb_spec (User.id x) (User.id u)) as [E|E].
    + exfalso. apply Hn. now left.
    + apply IH. intros H. apply Hn. now right.
  - apply IH. intros H. apply Hn. now right.
Qed.

Lemma filter_eqb_once (P : User.t -> bool) (u : User.t) (l : list User.t) :
  NoDup (map User.id l) -> In u l ->
  List.length (filter (fun v => User.eqb v u) (filter P l))
  = if P u then 1%nat else 0%nat.
Proof.
  induction l as [|x r IH]; simpl; [intros _ []|].
  intros Hnd Hin. inversion Hnd as [|? ? Hx Hr]; subst.
  destruct Hin as [->|Hin].
  - destruct (P u); simpl.
    + unfold User.eqb at 1. rewrite N.eqb_refl. simpl.
      now rewrite filter_eqb_absent.
    + now rewrite filter_eqb_absent.
  - assert (Hne : User.id x <> User.id u).
    { intros E. apply Hx. rewrite E. now apply in_map. }
    destruct (P x); simpl; [|now apply IH].
    unfold User.eqb at 1. destruct (N.eqb_spec (User.id x) (User.id u)); [congruence|].
    now apply IH.
Qed.

Lemma received_map (u : User.t) (new : list Notification.t) :
  List.length (received u new)
  = List.length (filter (fun v => User.eqb v u) (map Notification.destinataire new)).
Proof.
  unfold received. induction new as [|n r IH]; simpl; [reflexivity|].
  destruct (User.eqb (Notification.destinataire n) u); simpl; now rewrite IH.
Qed.

Lemma admins_to_notify_spec (st : State) :
  admins_to_notify st instance = filter (spec_recipient instance) (users st).
Proof.
  unfold admins_to_notify, spec_recipient, User.eqb.
  induction (users st) as [|x r IH]; simpl; [reflexivity|].
  destruct (User.role_eqb (User.role x) User.admin && User.is_validated x); simpl.
  - destruct (negb _); now rewrite IH.
  - exact IH.
Qed.
End NewAction.

(** C6. Saving a new action appends one notification per row of the
    user table that is an administrator with a validated account other
    than the author: each of these users receives exactly one, every
    other user none, every one of them is of type [nouvelle_action] and
    refers to the action, and its message ends with the description, cut
    to its first 100 characters and followed by '...' when it is longer. *)
Theorem new_action_notifies_validated_admins (now : datetime.t) (st : State)
    (instance : Action.t) :
  NoDup (map User.id (users st)) ->
  let st' := create_new_action_notification now st instance true in
  let description := Action.description instance in
  exists new,
    notifications st' = notifications st ++ new
    /\ (forall n, In n new ->
          Notification.type n = Notification.T_nouvelle_action
          /\ Notification.action n = Some instance
          /\ In (Notification.destinataire n) (users st)
          /\ spec_recipient instance (Notification.destinataire n) = true
          /\ exists head,
               Notification.message n
               = head ++ nl ++ lit "Description : "
                 ++ (if (100 <? List.length description)%nat
                     then firstn 100 description ++ lit "..."
                     else description))
    /\ (forall u, In u (users st) ->
          List.length (received u new)
          = if spec_recipient instance u then 1%nat else 0%nat)
    /\ ((100 < List.length description)%nat ->
        List.length (firstn 100 description) = 100%nat).
Proof.
  intros Hnd st' description. subst st'.
  unfold create_new_action_notification.
  destruct (notify_admin_loop now instance (admins_to_notify st instance) st)
    as (new & Hn & Hd & Hf).
  exists new. split; [exact Hn|]. split; [|split].
  - intros n Hin. rewrite Forall_forall in Hf.
    destruct (Hf n Hin) as (Hty & Hmsg & Hact & _ & _).
    assert (Hrec : In (Notification.destinataire n)
                     (filter (spec_recipient instance) (users st))).
    { rewrite <- admins_to_notify_spec, <- Hd. now apply in_map. }
    apply filter_In in Hrec. destruct Hrec as [Hu Hs].
    repeat (split; [assumption|]).
    rewrite Hmsg. unfold new_action_message. fold description.
    destruct (100 <? List.length description)%nat; eexists; reflexivity.
  - intros u Hu. rewrite received_map, Hd, admins_to_notify_spec.
    now apply filter_eqb_once.
  - intros Hlen. rewrite length_firstn. lia.
Qed.

(** The five users of the sample: Bob and Carol are validated
    administrators, Erin is an administrator whose account is not
    validated. Alice's new action notifies Bob and Carol. *)
Lemma new_action_notifies_validated_admins_witness :
  exists new,
    notifications (create_new_action_notification Sample.t0 Sample.st0 Sample.action1 true)
    = notifications Sample.st0 ++ new
    /\ map Notification.destinataire new = [Sample.bob; Sample.carol].
Proof.
  assert (Hnd : NoDup (map User.id (users Sample.st0))).
  { vm_compute. repeat constructor; simpl; intuition discriminate. }
  destruct (new_action_notifies_validated_admins Sample.t0 Sample.st0 Sample.action1 Hnd)
    as (new & Hn & _).
  exists new. split; [exact Hn|].
  vm_compute in Hn. rewrite <- Hn. reflexivity.
Defined.

(** ** C7: who may edit *)

Lemma can_be_edited_iff (st : State) (a : Action.t) :
  can_be_edited st a = true <->
  validation_status st a = Validation.en_attente
  \/ validation_status st a = Validation.refuse.
Proof.
  unfold can_be_edited.
  destruct (validation_status st a); simpl; split; intros H; auto;
    try discriminate; destruct H; discriminate.
Qed.

(** C7. [action_edit] lets a request through (it flashes no error and
    goes on to the form) exactly when the requester is the author of the
    action, the derived status is [en_attente] or [refuse], and the
    service of the action is open with a closing date still ahead; the
    status part is what [can_be_edited] computes, and a validated action
    is refused even while its service is open. *)
Theorem action_edit_allowed_iff (form_clean : HttpRequest -> option str)
    (now : datetime.t) (st : State) (request : HttpRequest) (action_id : N)
    (u : User.t) (a : Action.t) :
  user request = Some u ->
  Action_objects_get st action_id = Some a ->
  let r := action_edit form_clean now st request action_id in
  (edit_refused r = false <->
     User.eqb (Action.auteur a) u = true
     /\ (validation_status st a = Validation.en_attente
         \/ validation_status st a = Validation.refuse)
     /\ Service.is_active now (Action.service a) = true)
  /\ (edit_refused r = false <->
        User.eqb (Action.auteur a) u = true
        /\ can_be_edited st a = true
        /\ Service.is_active now (Action.service a) = true)
  /\ (validation_status st a = Validation.valide ->
        can_be_edited st a = false /\ edit_refused r = true).
Proof.
  intros Hu Ha r.
  assert (Hmain : edit_refused r = false <->
     User.eqb (Action.auteur a) u = true
     /\ (validation_status st a = Validation.en_attente
         \/ validation_status st a = Validation.refuse)
     /\ Service.is_active now (Action.service a) = true).
  { subst r. unfold action_edit, login_required, edit_refused, flash, Service.is_active.
    rewrite Hu, Ha, datetime_facts.gtb_leb.
    destruct (User.eqb (Action.auteur a) u);
      destruct (Service.statut (Action.service a));
      destruct (datetime.leb (Service.date_fermeture (Action.service a)) now);
      destruct (validation_status st a);
      simpl; try (split; [discriminate | intros (? & [?|?] & ?); discriminate]);
      destruct (str_eqb (method request) (lit "POST"));
      try destruct (form_clean request); simpl; split; auto; discriminate. }
  split; [exact Hmain|]. split.
  - rewrite Hmain, can_be_edited_iff. reflexivity.
  - intros Hv. split.
    + destruct (can_be_edited st a) eqn:E; [|reflexivity].
      apply can_be_edited_iff in E. rewrite Hv in E. destruct E; discriminate.
    + destruct (edit_refused r) eqn:E; [reflexivity|].
      destruct (proj1 Hmain eq_refl) as (_ & [E'|E'] & _); rewrite Hv in E'; discriminate.
Qed.

(** Alice opens the edit form of her pending action 1 while her service
    is open. *)
Lemma action_edit_allowed_iff_witness :
  edit_refused (action_edit (fun _ => None) Sample.t1 Sample.st0
                  (Sample.get Sample.alice) 1) = false.
Proof.
  apply (proj1 (action_edit_allowed_iff (fun _ => None) Sample.t1 Sample.st0
                  (Sample.get Sample.alice) 1
                  (u := Sample.alice) (a := Sample.action1) eq_refl eq_refl)).
  vm_compute. auto.
Defined.

(** ** The JSON scanner never runs out of fuel *)

Section Scanner.
Local Open Scope nat_scope.

Lemma skip_ws_length (s : str) : List.length (skip_ws s) <= List.length s.
Proof.
  induction s as [|c r IH]; simpl; [lia|].
  destruct (is_ws c); simpl; lia.
Qed.

Lemma hex4_length (s : str) v r :
  hex4 s = Some (v, r) -> List.length s = 4 + List.length r.
Proof.
  destruct s as [|a [|b [|c [|d r']]]]; simpl; try discriminate.
  destruct (hexval a), (hexval b), (hexval c), (hexval d); try discriminate.
  intros [= _ <-]. reflexivity.
Qed.

Lemma scanstring_shorter (fuel : nat) : forall acc s v rest,
  scanstring fuel acc s = Some (v, rest) -> List.length rest < List.length s.
Proof.
  induction fuel as [|fuel IH]; intros acc s v rest H; cbn [scanstring] in H;
    [discriminate|].
  destruct s as [|c r]; [discriminate|].
  destruct (c =? 34)%N; [injection H as _ <-; simpl; lia|].
  destruct (c =? 92)%N.
  - destruct r as [|esc r1]; [discriminate|].
    destruct (esc =? 117)%N.
    + destruct (hex4 r1) as [[uni r2]|] eqn:Hh; [|discriminate].
      apply hex4_length in Hh.
      destruct (_ && startswith r2 [92%N; 117%N]).
      * destruct (hex4 (skipn 2 r2)) as [[uni2 r4]|] eqn:Hh2; [|discriminate].
        apply hex4_length in Hh2. rewrite length_skipn in Hh2.
        destruct (_ && _); apply IH in H; simpl; lia.
      * apply IH in H. simpl. lia.
    + destruct (backslash esc); [|discriminate].
      apply IH in H. simpl. lia.
  - destruct (c <? 32)%N; [discriminate|].
    apply IH in H. simpl. lia.
Qed.

Lemma scanstring_fuel (f1 : nat) : forall f2 acc s,
  List.length s <= f1 -> List.length s <= f2 ->
  scanstring f1 acc s = scanstring f2 acc s.
Proof.
  induction f1 as [|f1 IH]; intros f2 acc s H1 H2.
  { destruct s; [|simpl in H1; lia]. destruct f2; reflexivity. }
  destruct f2 as [|f2].
  { destruct s; [reflexivity|simpl in H2; lia]. }
  cbn [scanstring].
  destruct s as [|c r]; [reflexivity|]. simpl in H1, H2.
  destruct (c =? 34)%N; [reflexivity|].
  destruct (c =? 92)%N.
  - destruct r as [|esc r1]; [reflexivity|]. simpl in H1, H2.
    destruct (esc =? 117)%N.
    + destruct (hex4 r1) as [[uni r2]|] eqn:Hh; [|reflexivity].
      apply hex4_length in Hh.
      destruct (_ && startswith r2 [92%N; 117%N]).
      * destruct (hex4 (skipn 2 r2)) as [[uni2 r4]|] eqn:Hh2; [|reflexivity].
        apply hex4_length in Hh2. rewrite length_skipn in Hh2.
        destruct (_ && _); apply IH; lia.
      * apply IH; lia.
    + destruct (backslash esc); [|reflexivity]. apply IH; lia.
  - destruct (c <? 32)%N; [reflexivity|]. apply IH; lia.
Qed.

Lemma span_digits_length (s : str) :
  List.length (snd (span_digits s)) <= List.length s.
Proof.
  induction s as [|c r IH]; simpl; [lia|].
  destruct (is_digit c); simpl; lia.
Qed.

Lemma match_integer_shorter (s : str) i r :
  match_integer s = Some (i, r) -> List.length r < List.length s.
Proof.
  unfold match_integer.
  assert (Hs1 : List.length (if startswith s [45%N] then skipn 1 s else s)
                <= List.length s).
  { destruct (startswith s [45%N]); [rewrite length_skipn|]; lia. }
  destruct (if startswith s [45%N] then skipn 1 s else s) as [|c r0] eqn:E;
    [discriminate|].
  simpl in Hs1.
  destruct (c =? 48)%N; [intros [= _ <-]; lia|].
  destruct (is_digit c) eqn:Hd; [|discriminate].
  intros [= _ <-]. simpl. rewrite Hd. simpl.
  pose proof (span_digits_length r0). lia.
Qed.

Lemma match_frac_le (s : str) f r :
  match_frac s = Some (f, r) -> List.length r <= List.length s.
Proof.
  unfold match_frac. destruct s as [|c r0]; [discriminate|].
  destruct (c =? 46)%N; [|discriminate].
  destruct (fst (span_digits r0)); [discriminate|].
  intros [= _ <-]. pose proof (span_digits_length r0). simpl. lia.
Qed.

Lemma match_exp_le (s : str) e r :
  match_exp s = Some (e, r) -> List.length r <= List.length s.
Proof.
  unfold match_exp. destruct s as [|c r0]; [discriminate|].
  destruct (_ || _); [|discriminate].
  set (r1 := if startswith r0 [45%N] || startswith r0 [43%N]
             then skipn 1 r0 else r0).
  assert (List.length r1 <= List.length r0).
  { subst r1. destruct (_ || _); [rewrite length_skipn|]; lia. }
  destruct (fst (span_digits r1)); [discriminate|].
  intros [= _ <-]. pose proof (span_digits_length r1). simpl. lia.
Qed.

Lemma scan_number_shorter (s : str) v r :
  scan_number s = Some (v, r) -> List.length r < List.length s.
Proof.
  unfold scan_number.
  destruct (match_integer s) as [[i r0]|] eqn:Hi; [|discriminate].
  apply match_integer_shorter in Hi.
  remember (match match_frac r0 with Some (_, r') => r' | None => r0 end) as r1
    eqn:Er1.
  assert (H1 : List.length r1 <= List.length r0).
  { subst r1. destruct (match_frac r0) as [[f r']|] eqn:Hf; [|lia].
    now apply match_frac_le in Hf. }
  remember (match match_exp r1 with Some (_, r') => r' | None => r1 end) as r2
    eqn:Er2.
  assert (H2 : List.length r2 <= List.length r1).
  { subst r2. destruct (match_exp r1) as [[e r']|] eqn:He; [|lia].
    now apply match_exp_le in He. }
  destruct (match match_frac r0 with Some (f, _) => f | None => [] end);
    destruct (match match_exp r1 with Some (e, _) => e | None => [] end);
    intros [= _ <-]; lia.
Qed.

Lemma strip_prefix_length (p : str) : forall s r,
  strip_prefix p s = Some r -> List.length s = List.length p + List.length r.
Proof.
  induction p as [|a p IH]; intros s r; simpl.
  - intros [= ->]. reflexivity.
  - destruct s as [|b s']; [discriminate|].
    destruct (a =? b)%N; [|discriminate].
    intros H. apply IH in H. simpl. lia.
Qed.

Lemma scan_constant_shorter (s : str) v r :
  scan_constant s = Some (v, r) -> List.length r < List.length s.
Proof.
  unfold scan_constant.
  destruct (strip_prefix (lit "null") s) eqn:E1;
    [apply strip_prefix_length in E1;
     change (List.length (lit "null")) with 4 in E1; intros [= _ <-]; lia|].
  destruct (strip_prefix (lit "true") s) eqn:E2;
    [apply strip_prefix_length in E2;
     change (List.length (lit "true")) with 4 in E2; intros [= _ <-]; lia|].
  destruct (strip_prefix (lit "false") s) eqn:E3; [|discriminate].
  apply strip_prefix_length in E3.
  change (List.length (lit "false")) with 5 in E3. intros [= _ <-]. lia.
Qed.

Lemma scan_float_constant_shorter (s : str) v r :
  scan_float_constant s = Some (v, r) -> List.length r < List.length s.
Proof.
  unfold scan_float_constant.
  destruct (strip_prefix (lit "NaN") s) eqn:E1;
    [apply strip_prefix_length in E1;
     change (List.length (lit "NaN")) with 3 in E1; intros [= _ <-]; lia|].
  destruct (strip_prefix (lit "Infinity") s) eqn:E2;
    [apply strip_prefix_length in E2;
     change (List.length (lit "Infinity")) with 8 in E2; intros [= _ <-]; lia|].
  destruct (strip_prefix (lit "-Infinity") s) eqn:E3; [|discriminate].
  apply strip_prefix_length in E3.
  change (List.length (lit "-Infinity")) with 9 in E3. intros [= _ <-]. lia.
Qed.

Lemma scan_scalar_shorter (s : str) v r :
  scan_scalar s = Some (v, r) -> List.length r < List.length s.
Proof.
  unfold scan_scalar.
  destruct (scan_constant s) as [[v0 r0]|] eqn:E1;
    [intros [= <- <-]; now apply scan_constant_shorter in E1|].
  destruct (scan_number s) as [[v0 r0]|] eqn:E2;
    [intros [= <- <-]; now apply scan_number_shorter in E2|].
  apply scan_float_constant_shorter.
Qed.

(** Every scanner consumes at least one character. *)
Lemma scan_shorter (fuel : nat) :
  (forall s v rest,
     scan_once fuel s = Some (v, rest) -> List.length rest < List.length s)
  /\ (forall values s v rest,
        JSONArray fuel values s = Some (v, rest) -> List.length rest < List.length s)
  /\ (forall pairs s v rest,
        JSONObject fuel pairs s = Some (v, rest) -> List.length rest < List.length s).
Proof.
  induction fuel as [|fuel (IHo & IHa & IHj)].
  { repeat split; intros; discriminate. }
  split; [|split].
  - intros s v rest H. cbn [scan_once] in H.
    destruct s as [|c r]; [discriminate|].
    destruct (c =? 34)%N.
    { destruct (scanstring (List.length r) [] r) as [[v0 r0]|] eqn:E; [|discriminate].
      apply scanstring_shorter in E. injection H as _ <-. simpl. lia. }
    destruct (c =? 123)%N.
    { pose proof (skip_ws_length r) as Hw.
      destruct (skip_ws r) as [|c1 r1]; [discriminate|]. simpl in Hw.
      destruct (c1 =? 125)%N; [injection H as _ <-; simpl; lia|].
      destruct (c1 =? 34)%N; [|discriminate].
      apply IHj in H. simpl. lia. }
    destruct (c =? 91)%N.
    { pose proof (skip_ws_length r) as Hw.
      destruct (skip_ws r) as [|c1 r1]; [discriminate|]. simpl in Hw.
      destruct (c1 =? 93)%N; [injection H as _ <-; simpl; lia|].
      apply IHa in H. simpl in *. lia. }
    now apply scan_scalar_shorter in H.
  - intros values s v rest H. cbn [JSONArray] in H.
    destruct (scan_once fuel s) as [[value r]|] eqn:E; [|discriminate].
    apply IHo in E. pose proof (skip_ws_length r) as Hw.
    destruct (skip_ws r) as [|c1 r1]; [discriminate|]. simpl in Hw.
    destruct (c1 =? 93)%N; [injection H as _ <-; lia|].
    destruct (c1 =? 44)%N; [|discriminate].
    apply IHa in H. pose proof (skip_ws_length r1). lia.
  - intros pairs s v rest H. cbn [JSONObject] in H.
    destruct (scanstring (List.length s) [] s) as [[key r]|] eqn:E; [|discriminate].
    apply scanstring_shorter in E. pose proof (skip_ws_length r) as Hw.
    destruct (skip_ws r) as [|c1 r1]; [discriminate|]. simpl in Hw.
    destruct (c1 =? 58)%N; [|discriminate].
    destruct (scan_once fuel (skip_ws r1)) as [[value r2]|] eqn:E2; [|discriminate].
    apply IHo in E2. pose proof (skip_ws_length r1) as Hw1.
    pose proof (skip_ws_length r2) as Hw2.
    destruct (skip_ws r2) as [|c2 r3]; [discriminate|]. simpl in Hw2.
    destruct (c2 =? 125)%N; [injection H as _ <-; lia|].
    destruct (c2 =? 44)%N; [|discriminate].
    pose proof (skip_ws_length r3) as Hw3.
    destruct (skip_ws r3) as [|c3 r4]; [discriminate|]. simpl in Hw3.
    destruct (c3 =? 34)%N; [|discriminate].
    apply IHj in H. lia.
Qed.
(** Past twice the length of the text, more fuel changes nothing. *)
Lemma scan_fuel (f1 : nat) :
  (forall s f2,
     2 * List.length s + 1 <= f1 -> 2 * List.length s + 1 <= f2 ->
     scan_once f1 s = scan_once f2 s)
  /\ (forall values s f2,
        2 * List.length s + 2 <= f1 -> 2 * List.length s + 2 <= f2 ->
        JSONArray f1 values s = JSONArray f2 values s)
  /\ (forall pairs s f2,
        2 * List.length s + 2 <= f1 -> 2 * List.length s + 2 <= f2 ->
        JSONObject f1 pairs s = JSONObject f2 pairs s).
Proof.
  induction f1 as [|f1 (IHo & IHa & IHj)].
  { repeat split; intros; lia. }
  split; [|split].
  - intros s [|f2] H1 H2; [lia|]. cbn [scan_once].
    destruct s as [|c r]; [reflexivity|]. simpl in H1, H2.
    destruct (c =? 34)%N; [reflexivity|].
    pose proof (skip_ws_length r) as Hw.
    destruct (c =? 123)%N.
    { destruct (skip_ws r) as [|c1 r1]; [reflexivity|]. simpl in Hw.
      destruct (c1 =? 125)%N; [reflexivity|].
      destruct (c1 =? 34)%N; [|reflexivity].
      apply IHj; lia. }
    destruct (c =? 91)%N; [|reflexivity].
    destruct (skip_ws r) as [|c1 r1]; [reflexivity|].
    destruct (c1 =? 93)%N; [reflexivity|].
    apply IHa; simpl in *; lia.
  - intros values s [|f2] H1 H2; [lia|]. cbn [JSONArray].
    rewrite (IHo s f2) by lia.
    destruct (scan_once f2 s) as [[value r]|] eqn:E; [|reflexivity].
    apply (proj1 (scan_shorter f2)) in E.
    pose proof (skip_ws_length r) as Hw.
    destruct (skip_ws r) as [|c1 r1]; [reflexivity|]. simpl in Hw.
    destruct (c1 =? 93)%N; [reflexivity|].
    destruct (c1 =? 44)%N; [|reflexivity].
    pose proof (skip_ws_length r1).
    apply IHa; lia.
  - intros pairs s [|f2] H1 H2; [lia|]. cbn [JSONObject].
    destruct (scanstring (List.length s) [] s) as [[key r]|] eqn:E; [|reflexivity].
    apply scanstring_shorter in E.
    pose proof (skip_ws_length r) as Hw.
    destruct (skip_ws r) as [|c1 r1]; [reflexivity|]. simpl in Hw.
    destruct (c1 =? 58)%N; [|reflexivity].
    pose proof (skip_ws_length r1) as Hw1.
    rewrite (IHo (skip_ws r1) f2) by lia.
    destruct (scan_once f2 (skip_ws r1)) as [[value r2]|] eqn:E2; [|reflexivity].
    apply (proj1 (scan_shorter f2)) in E2.
    pose proof (skip_ws_length r2) as Hw2.
    destruct (skip_ws r2) as [|c2 r3]; [reflexivity|]. simpl in Hw2.
    destruct (c2 =? 125)%N; [reflexivity|].
    destruct (c2 =? 44)%N; [|reflexivity].
    pose proof (skip_ws_length r3) as Hw3.
    destruct (skip_ws r3) as [|c3 r4]; [reflexivity|]. simpl in Hw3.
    destruct (c3 =? 34)%N; [|reflexivity].
    apply IHj; lia.
Qed.

(** The fuel [json_loads] gives is enough: any larger fuel scans the
    text to the same result. *)
Lemma scan_once_fuel (s : str) (fuel : nat) :
  2 * List.length s + 2 <= fuel ->
  scan_once fuel (skip_ws s) = scan_once (2 * List.length s + 2) (skip_ws s).
Proof.
  intros H. pose proof (skip_ws_length s).
  apply (proj1 (scan_fuel fuel)); lia.
Qed.
End Scanner.

(** ** C9: inbound messages of the WebSocket consumer *)

Lemma receive_not_json (st : State) (self : NotificationConsumer.t) (text_data : str) :
  json_loads text_data = None ->
  NotificationConsumer.receive st self text_data = NotificationConsumer.Sent [].
Proof. intros H. unfold NotificationConsumer.receive. now rewrite H. Qed.

Lemma receive_other_object (st : State) (self : NotificationConsumer.t)
    (text_data : str) (d : list (str * pyobj)) :
  json_loads text_data = Some (PyDict d) ->
  eq_str (dict_get d (lit "type") PyNone) (lit "get_unread_count") = false ->
  NotificationConsumer.receive st self text_data = NotificationConsumer.Sent [].
Proof. intros H E. unfold NotificationConsumer.receive. now rewrite H, E. Qed.

Lemma receive_get_unread_count (st : State) (self : NotificationConsumer.t) :
  NotificationConsumer.receive st self get_unread_count_request
  = NotificationConsumer.Sent
      [dumps_unread_count (NotificationConsumer.get_unread_count st self)].
Proof.
  unfold NotificationConsumer.receive.
  replace (json_loads get_unread_count_request)
    with (Some (PyDict [(lit "type", PyStr (lit "get_unread_count"))]))
    by (vm_compute; reflexivity).
  reflexivity.
Qed.

Lemma receive_not_an_object (st : State) (self : NotificationConsumer.t)
    (text_data : str) (data : pyobj) :
  json_loads text_data = Some data ->
  (forall d, data <> PyDict d) ->
  NotificationConsumer.receive st self text_data
  = NotificationConsumer.Raised NotificationConsumer.AttributeError.
Proof.
  intros H Hd. unfold NotificationConsumer.receive. rewrite H.
  destruct data; try reflexivity. now elim (Hd d).
Qed.

(** C9 fails on the code: the frames [[]], [42], [null] and a quoted
    string are JSON documents, so [json.loads] returns and no
    [JSONDecodeError] is caught; what it returns has no [get] method
    and [receive] ends on an uncaught [AttributeError]. Text that is not
    JSON is ignored, and so is an object of another type. *)
Theorem receive_raises_on_json_that_is_not_an_object :
  json_loads (lit "[]") = Some (PyList [])
  /\ (forall st self,
        NotificationConsumer.receive st self (lit "[]")
        = NotificationConsumer.Raised NotificationConsumer.AttributeError)
  /\ (forall st self,
        NotificationConsumer.receive st self (lit "42")
        = NotificationConsumer.Raised NotificationConsumer.AttributeError)
  /\ (forall st self,
        NotificationConsumer.receive st self (lit "null")
        = NotificationConsumer.Raised NotificationConsumer.AttributeError)
  /\ (forall st self,
        NotificationConsumer.receive st self (quoted "get_unread_count")
        = NotificationConsumer.Raised NotificationConsumer.AttributeError)
  /\ (forall st self,
        NotificationConsumer.receive st self (lit "get_unread_count")
        = NotificationConsumer.Sent [])
  /\ (forall st self,
        NotificationConsumer.receive st self (lit "{}")
        = NotificationConsumer.Sent []).
Proof.
  split; [vm_compute; reflexivity|].
  repeat match goal with |- _ /\ _ => split end; intros st self.
  - eapply receive_not_an_object; [vm_compute; reflexivity|discriminate].
  - eapply receive_not_an_object; [vm_compute; reflexivity|discriminate].
  - eapply receive_not_an_object; [vm_compute; reflexivity|discriminate].
  - eapply receive_not_an_object; [vm_compute; reflexivity|discriminate].
  - apply receive_not_json. vm_compute. reflexivity.
  - eapply receive_other_object; vm_compute; reflexivity.
Qed.

(** ** C10: the unread counts *)

Lemma count_unread_spec (l : list Notification.t) (u : User.t) :
  List.length (filter (unread u) l) = spec_unread_count_in l u.
Proof.
  induction l as [|n r IH]; simpl; [reflexivity|].
  unfold unread at 1, User.eqb.
  destruct (User.id (Notification.destinataire n) =? User.id u); simpl; [|exact IH].
  destruct (Notification.lue n); simpl; now rewrite IH.
Qed.

(** C10. For every store and user the JSON view, the consumer (in
    [get_unread_count], in the frame sent by [connect] and in the reply
    of [receive] to a refresh request) and the dispatcher (in the count
    pushed with a validation notification, a new-action notification or
    a [notify_user] notification, read after the row is written) all
    give the number of the user's notifications whose [lue] is false. *)
Theorem unread_counts_agree (st : State) (u : User.t) :
  (forall request, user request = Some u ->
     get_unread_count st request = (st, [], JsonResponse (spec_unread_count st u)))
  /\ (forall self, NotificationConsumer.user self = u ->
        NotificationConsumer.get_unread_count st self = spec_unread_count st u)
  /\ (exists self,
        NotificationConsumer.connect st (Some u)
        = NotificationConsumer.Accepted self
            [dumps_unread_count (spec_unread_count st u)]
        /\ NotificationConsumer.user self = u)
  /\ (forall self, NotificationConsumer.user self = u ->
        NotificationConsumer.receive st self get_unread_count_request
        = NotificationConsumer.Sent [dumps_unread_count (spec_unread_count st u)])
  /\ (forall now instance,
        Action.auteur (Validation.action instance) = u ->
        User.eqb (Validation.validateur instance) u = false ->
        let st' := create_validation_notification now st instance true in
        exists ev,
          channel_layer st' = channel_layer st ++ [ev]
          /\ ev_count ev = spec_unread_count st' u)
  /\ (forall now instance,
        let st' := notify_admin now instance st u in
        exists ev,
          channel_layer st' = channel_layer st ++ [ev]
          /\ ev_count ev = spec_unread_count st' u)
  /\ (forall now notif_type message action validation,
        let st' := notify_user now st u notif_type message action validation in
        exists ev,
          channel_layer st' = channel_layer st ++ [ev]
          /\ ev_count ev = spec_unread_count st' u).
Proof.
  split; [|split; [|split; [|split; [|split; [|split]]]]].
  - intros request Hu. unfold get_unread_count, login_required.
    rewrite Hu, count_unread_spec. reflexivity.
  - intros self <-. apply count_unread_spec.
  - eexists. split.
    + unfold NotificationConsumer.connect, NotificationConsumer.get_unread_count.
      cbn [NotificationConsumer.user]. rewrite count_unread_spec. reflexivity.
    + reflexivity.
  - intros self <-. rewrite receive_get_unread_count.
    unfold NotificationConsumer.get_unread_count. now rewrite count_unread_spec.
  - intros now instance <- Hne st'. subst st'.
    unfold create_validation_notification. rewrite Hne.
    destruct (validation_message instance) as [ty msg].
    eexists. split; [reflexivity|].
    unfold spec_unread_count. rewrite <- count_unread_spec. reflexivity.
  - intros now instance st'. subst st'. unfold notify_admin.
    eexists. split; [reflexivity|].
    unfold spec_unread_count. rewrite <- count_unread_spec. reflexivity.
  - intros now notif_type message action validation st'. subst st'.
    unfold notify_user.
    eexists. split; [reflexivity|].
    unfold spec_unread_count. rewrite <- count_unread_spec. reflexivity.
Qed.

(** After Bob's validation and Carol's later rejection Alice has two
    unread notifications, and the last pushed event carries that count. *)
Lemma unread_counts_sample :
  spec_unread_count Sample.st_rejected Sample.alice = 2%nat
  /\ map ev_count (channel_layer Sample.st_rejected) = [1%nat; 2%nat]
  /\ NotificationConsumer.receive Sample.st_rejected Sample.consumer_alice
       get_unread_count_request
     = NotificationConsumer.Sent
         [lit "{" ++ quoted "type" ++ lit ": " ++ quoted "unread_count" ++ lit ", "
          ++ quoted "count" ++ lit ": 2}"].
Proof. vm_compute. repeat split. Qed.


(** * Further properties *)

From Stdlib Require Import Permutation Sorted.

(** ** What saving a ledger entry does *)

Lemma Validation_save_new_eq now st a u s c :
  let entry := Validation.mk (validation_seq st + 1) a u s c now in
  let n :=
    Notification.mk (notification_seq st + 1) (Action.auteur a)
      (fst (validation_message entry)) (snd (validation_message entry)) false now
      (Some a) (Some entry) in
  Validation_save_new now st a u s c =
  if User.eqb u (Action.auteur a) then
    set_validations st (validations st ++ [entry]) (validation_seq st + 1)
  else
    {| users := users st; services := services st; actions := actions st;
       validations := validations st ++ [entry];
       validation_seq := validation_seq st + 1;
       notifications := notifications st ++ [n];
       notification_seq := notification_seq st + 1;
       channel_layer :=
         channel_layer st ++
           [{| ev_group := lit "notifications_" ++ str_of_N (User.id (Action.auteur a));
               ev_notification := notification_data n;
               ev_count :=
                 List.length (filter (unread (Action.auteur a))
                                (notifications st ++ [n])) |}] |}.
Proof.
  intros entry n. subst n entry.
  unfold Validation_save_new, create_validation_notification.
  cbn [Validation.validateur Validation.action].
  destruct (User.eqb u (Action.auteur a)); [reflexivity|].
  destruct (validation_message _) as [ty msg]. reflexivity.
Qed.

(** A submission either leaves the store as it was or saves one entry
    for the action it names, on behalf of an administrator. *)
Lemma submit_cases (k : Submission) now st request action_id :
  new_state (submit k now st request action_id) = st
  \/ exists a u statut commentaire,
       Action_objects_get st action_id = Some a
       /\ user request = Some u
       /\ User.role u = User.admin
       /\ new_state (submit k now st request action_id)
          = Validation_save_new now st a u statut commentaire
       /\ match k with
          | Validate =>
              statut = Validation.valide /\ commentaire = None
              /\ validation_status st a <> Validation.valide
          | Reject =>
              statut = Validation.refuse
              /\ exists c, commentaire = Some c /\ c <> []
                           /\ c = strip (QueryDict_get (POST request)
                                           (lit "commentaire") [])
          | Comment =>
              statut = validation_status st a
              /\ exists c, commentaire = Some c /\ c <> []
                           /\ c = strip (QueryDict_get (POST request)
                                           (lit "commentaire") [])
          end.
Proof.
  destruct k; unfold submit, validate_action, reject_action, comment_action,
    login_required, new_state.
  - destruct (user request) as [u|]; [|now left].
    destruct (User.role u) eqn:Hr; simpl; try (now left).
    destruct (Action_objects_get st action_id) as [a|]; [|now left].
    destruct (Validation.statut_eqb (validation_status st a) Validation.valide) eqn:E;
      [now left|].
    right. exists a, u, Validation.valide, None. repeat split; auto.
    intros H. rewrite H in E. discriminate.
  - destruct (user request) as [u|]; [|now left].
    destruct (User.role u) eqn:Hr; simpl; try (now left).
    destruct (Action_objects_get st action_id) as [a|]; [|now left].
    destruct (str_eqb (method request) (lit "POST")); [|now left].
    destruct (strip (QueryDict_get (POST request) (lit "commentaire") []))
      as [|c0 c'] eqn:Ec; [now left|].
    unfold Validation_clean. rewrite Hr. cbn.
    right. exists a, u, Validation.refuse, (Some (c0 :: c')).
    repeat split; auto. exists (c0 :: c'). repeat split; auto. discriminate.
  - destruct (user request) as [u|]; [|now left].
    destruct (User.role u) eqn:Hr; simpl; try (now left).
    destruct (Action_objects_get st action_id) as [a|]; [|now left].
    destruct (str_eqb (method request) (lit "POST")); [|now left].
    destruct (strip (QueryDict_get (POST request) (lit "commentaire") []))
      as [|c0 c'] eqn:Ec; [now left|].
    right. exists a, u, (validation_status st a), (Some (c0 :: c')).
    repeat split; auto. exists (c0 :: c'). repeat split; auto. discriminate.
Qed.

Lemma keys_ok_snoc (ids : list N) (seq : N) :
  keys_ok ids seq -> keys_ok (ids ++ [seq + 1]) (seq + 1).
Proof.
  intros [Hnd Hle]. split.
  - apply NoDup_app; [exact Hnd|repeat constructor; intros []|].
    intros x Hx [<-|[]]. rewrite Forall_forall in Hle.
    specialize (Hle _ Hx). lia.
  - apply Forall_app. split.
    + eapply Forall_impl; [|exact Hle]. intros x Hx. simpl in Hx. lia.
    + constructor; [lia|constructor].
Qed.

(** X1. The three submission views keep the store well formed and only
    ever append: the primary keys of the ledger and of the notifications
    stay pairwise distinct and below their counters, earlier ledger
    entries and notifications are kept unchanged and in place, at most
    one ledger entry and at most one notification are added, and the
    users, services and actions are not touched. *)
Theorem submit_appends_and_keeps_keys (k : Submission) (now : datetime.t)
    (st : State) (request : HttpRequest) (action_id : N) :
  store_ok st ->
  let st' := new_state (submit k now st request action_id) in
  store_ok st'
  /\ (exists newv newn,
        validations st' = validations st ++ newv
        /\ notifications st' = notifications st ++ newn
        /\ (List.length newn <= List.length newv <= 1)%nat)
  /\ users st' = users st /\ services st' = services st /\ actions st' = actions st.
Proof.
  intros [Hv Hn] st'. subst st'.
  destruct (submit_cases k now st request action_id)
    as [->|(a & u & s & c & _ & _ & _ & -> & _)].
  - split; [now split|]. split; [|auto].
    exists [], []. rewrite !app_nil_r. simpl. auto.
  - rewrite Validation_save_new_eq.
    destruct (User.eqb u (Action.auteur a)).
    + split; [split; simpl; [rewrite map_app; now apply keys_ok_snoc|exact Hn]|].
      split; [|auto]. eexists [_], []. simpl. rewrite app_nil_r. auto.
    + split.
      { split; simpl; [rewrite map_app|rewrite map_app]; now apply keys_ok_snoc. }
      split; [|auto]. eexists [_], [_]. simpl. auto.
Qed.

Lemma submit_appends_and_keeps_keys_witness :
  store_ok (new_state (submit Reject Sample.t2 Sample.st_validated
                         (Sample.post Sample.carol (lit "Incomplet")) 1)).
Proof.
  apply (@submit_appends_and_keeps_keys Reject Sample.t2 Sample.st_validated
           (Sample.post Sample.carol (lit "Incomplet")) 1).
  vm_compute.
  repeat split; repeat constructor; simpl; try lia; intuition discriminate.
Defined.

(** ** Stripped comments *)

Lemma lstrip_head (s : str) :
  match lstrip s with [] => True | c :: _ => isspace c = false end.
Proof.
  induction s as [|c r IH]; simpl; [exact I|].
  destruct (isspace c) eqn:E; [exact IH|exact E].
Qed.

Lemma lstrip_app_nonspace (x : str) (c : char) :
  isspace c = false -> lstrip (x ++ [c]) = lstrip x ++ [c].
Proof.
  intros Hc. induction x as [|a x IH]; simpl; [now rewrite Hc|].
  destruct (isspace a); auto.
Qed.

Lemma lstrip_idem (s : str) : lstrip (lstrip s) = lstrip s.
Proof.
  pose proof (lstrip_head s) as H.
  destruct (lstrip s) as [|c r]; [reflexivity|]. simpl. now rewrite H.
Qed.

Lemma strip_idem (s : str) : strip (strip s) = strip s.
Proof.
  unfold strip, rstrip.
  pose proof (lstrip_head s) as H.
  destruct (lstrip s) as [|c t]; [reflexivity|].
  cbn [rev]. rewrite (lstrip_app_nonspace _ _ H), rev_app_distr. cbn [rev app].
  cbn [lstrip]. rewrite H. cbn [rev].
  rewrite rev_involutive, (lstrip_app_nonspace _ _ H), lstrip_idem, rev_app_distr.
  reflexivity.
Qed.

(** X2. The three submission views keep the rule that a rejection
    carries a comment: if every [refuse] entry of the ledger has a
    comment that is not empty and has no whitespace at either end, the
    same holds after the submission. *)
Theorem submit_keeps_rejections_commented (k : Submission) (now : datetime.t)
    (st : State) (request : HttpRequest) (action_id : N) :
  rejections_commented st ->
  rejections_commented (new_state (submit k now st request action_id)).
Proof.
  unfold rejections_commented. intros H.
  destruct (submit_cases k now st request action_id)
    as [->|(a & u & s & c & _ & _ & _ & -> & Hk)]; [exact H|].
  rewrite Validation_save_new_validations. apply Forall_app. split; [exact H|].
  constructor; [|constructor]. cbn. intros Hs.
  destruct k.
  - destruct Hk as (-> & _). discriminate.
  - destruct Hk as (_ & c0 & -> & Hne & ->). eexists. split; [reflexivity|].
    split; [exact Hne|apply strip_idem].
  - destruct Hk as (_ & c0 & -> & Hne & ->). eexists. split; [reflexivity|].
    split; [exact Hne|apply strip_idem].
Qed.

Lemma submit_keeps_rejections_commented_witness :
  rejections_commented
    (new_state (submit Reject Sample.t2 Sample.st_validated
                  (Sample.post Sample.carol (lit "  Incomplet ")) 1)).
Proof.
  apply (@submit_keeps_rejections_commented Reject Sample.t2 Sample.st_validated
           (Sample.post Sample.carol (lit "  Incomplet ")) 1).
  vm_compute. repeat constructor. discriminate.
Defined.

(** ** The status after a submission *)

Lemma latest_snoc (l : list Validation.t) (e : Validation.t) :
  first (order_by by_date_validation_desc (l ++ [e]))
  = match first (order_by by_date_validation_desc l) with
    | None => Some e
    | Some y =>
        if datetime.leb (Validation.date_validation e) (Validation.date_validation y)
        then Some y else Some e
    end.
Proof.
  induction l as [|x r IH]; [reflexivity|].
  change ((x :: r) ++ [e]) with (x :: (r ++ [e])).
  rewrite !first_order_by_cons, IH. unfold by_date_validation_desc.
  destruct (first (order_by _ r)) as [y|]; [|reflexivity].
  destruct (datetime.leb (Validation.date_validation e) (Validation.date_validation y))
    eqn:Hey;
    destruct (datetime.leb (Validation.date_validation y) (Validation.date_validation x))
      eqn:Hyx; rewrite ?Hey; try reflexivity.
  - now rewrite (datetime_facts.leb_trans _ _ _ Hey Hyx).
  - destruct (datetime.leb (Validation.date_validation e) (Validation.date_validation x))
      eqn:Hex; [|reflexivity].
    exfalso.
    pose proof (datetime_facts.ltb_leb _ _ (datetime_facts.leb_false_ltb _ _ Hyx))
      as Hxy.
    rewrite (datetime_facts.leb_trans _ _ _ Hex Hxy) in Hey. discriminate.
Qed.

Lemma Action_validations_eqb (st : State) (a b : Action.t) :
  Action.eqb a b = true -> Action_validations st a = Action_validations st b.
Proof.
  unfold Action.eqb. intros H. apply N.eqb_eq in H.
  unfold Action_validations, Action.eqb. now rewrite H.
Qed.

Lemma Action_validations_save now st a u s c (b : Action.t) :
  Action_validations (Validation_save_new now st a u s c) b
  = Action_validations st b
    ++ (if Action.eqb a b
        then [Validation.mk (validation_seq st + 1) a u s c now] else []).
Proof.
  unfold Action_validations. rewrite Validation_save_new_validations, filter_app.
  cbn. reflexivity.
Qed.

Lemma validation_status_after_save now st a u s c (b : Action.t) :
  validation_status (Validation_save_new now st a u s c) b
  = if Action.eqb a b then
      match latest_validation st b with
      | None => s
      | Some y =>
          if datetime.leb now (Validation.date_validation y)
          then Validation.statut y else s
      end
    else validation_status st b.
Proof.
  unfold validation_status, latest_validation.
  rewrite Action_validations_save.
  destruct (Action.eqb a b); [|now rewrite app_nil_r].
  rewrite latest_snoc. cbn [Validation.date_validation].
  destruct (first _) as [y|]; [|reflexivity].
  destruct (datetime.leb now (Validation.date_validation y)); reflexivity.
Qed.

(** X3. Commenting never changes a derived status: whatever the request
    and the clock, every action has the same [validation_status] after
    [comment_action] as before (the entry it appends repeats the current
    status of the action commented on). *)
Theorem comment_action_keeps_every_status (now : datetime.t) (st : State)
    (request : HttpRequest) (action_id : N) (b : Action.t) :
  validation_status (new_state (comment_action now st request action_id)) b
  = validation_status st b.
Proof.
  destruct (submit_cases Comment now st request action_id)
    as [H|(a & u & s & c & _ & _ & _ & H & -> & _)];
    cbn [submit] in H; rewrite H; [reflexivity|].
  rewrite validation_status_after_save.
  destruct (Action.eqb a b) eqn:E; [|reflexivity].
  assert (Hab : validation_status st a = validation_status st b).
  { unfold validation_status, latest_validation.
    now rewrite (Action_validations_eqb st _ _ E). }
  rewrite Hab. unfold validation_status.
  destruct (latest_validation st b) as [y|]; [|reflexivity].
  destruct (datetime.leb now (Validation.date_validation y)); reflexivity.
Qed.

(** The outcome a submission records. *)
Lemma Forall_first_order_by {A} (P : A -> Prop) (before : A -> A -> bool) l y :
  Forall P l -> first (order_by before l) = Some y -> P y.
Proof.
  induction l as [|x r IH]; [discriminate|].
  intros H. inversion H as [|? ? Hx Hr]; subst.
  rewrite first_order_by_cons.
  destruct (first (order_by before r)) as [z|].
  - destruct (before x z); intros [= <-]; auto.
  - intros [= <-]. exact Hx.
Qed.

Lemma ltb_not_leb (a b : datetime.t) :
  datetime.ltb a b = true -> datetime.leb b a = false.
Proof.
  unfold datetime.ltb, datetime.leb, datetime.compare.
  rewrite (datetime_facts.lexcmp_opp (datetime.astuple a) (datetime.astuple b)).
  destruct (datetime.lexcmp (datetime.astuple a) (datetime.astuple b));
    simpl; congruence.
Qed.

Lemma In_order_by {A} (before : A -> A -> bool) (l : list A) (x : A) :
  In x (order_by before l) <-> In x l.
Proof.
  assert (Hins : forall y r, In x (insert_row before y r) <-> x = y \/ In x r).
  { intros y r. induction r as [|z r IH]; simpl; [intuition congruence|].
    destruct (before y z); simpl; [intuition congruence|].
    rewrite IH. intuition congruence. }
  induction l as [|y r IH]; simpl; [reflexivity|].
  rewrite Hins, IH. intuition congruence.
Qed.

(** X4. A submission that writes to the ledger at a time later than
    every entry of the action makes the derived status of that action
    the outcome it recorded ([valide] for a validation, [refuse] for a
    rejection, the former status for a comment) and leaves the status of
    every other action as it was; the action is editable afterwards
    exactly when that outcome is not [valide], and the pending page
    lists it only when that outcome is [en_attente]. *)
Theorem submission_outcome_becomes_status (k : Submission) (now : datetime.t)
    (st : State) (request : HttpRequest) (action_id : N) (a : Action.t) :
  Action_objects_get st action_id = Some a ->
  clock_ahead now st a ->
  let st' := new_state (submit k now st request action_id) in
  validations st' <> validations st ->
  validation_status st' a = recorded_outcome k st a
  /\ (forall b, Action.eqb a b = false ->
        validation_status st' b = validation_status st b)
  /\ can_be_edited st' a
     = negb (Validation.statut_eqb (recorded_outcome k st a) Validation.valide)
  /\ (forall request' l n,
        pending_validations st' request' = ([], render "validations/pending.html",
                                            Some (l, n)) ->
        In a l -> recorded_outcome k st a = Validation.en_attente).
Proof.
  intros Ha Hclock st' Hchg. subst st'.
  destruct (submit_cases k now st request action_id)
    as [H|(a0 & u & s & c & Ha0 & _ & _ & H & Hk)];
    [rewrite H in Hchg; now elim Hchg|].
  rewrite Ha in Ha0. injection Ha0 as <-. rewrite H.
  assert (Hs : s = recorded_outcome k st a).
  { destruct k; cbn; tauto. }
  assert (Hstatus : validation_status (Validation_save_new now st a u s c) a
                    = recorded_outcome k st a).
  { rewrite validation_status_after_save.
    unfold Action.eqb. rewrite N.eqb_refl.
    destruct (latest_validation st a) as [y|] eqn:Ey; [|exact Hs].
    unfold latest_validation in Ey.
    eapply Forall_first_order_by in Ey; [|exact Hclock]. cbn in Ey.
    now rewrite (ltb_not_leb _ _ Ey). }
  split; [exact Hstatus|]. split; [|split].
  - intros b Hb. rewrite validation_status_after_save. now rewrite Hb.
  - unfold can_be_edited. rewrite Hstatus.
    destruct (recorded_outcome k st a); reflexivity.
  - intros request' l n Hp Hin. unfold pending_validations in Hp.
    destruct (user request') as [u'|]; [|discriminate].
    destruct (negb _); [discriminate|].
    injection Hp as <- _. apply filter_In in Hin. destruct Hin as [_ Hin].
    rewrite Hstatus in Hin.
    destruct (recorded_outcome k st a); try discriminate. reflexivity.
Qed.

(** Carol rejects, later than Bob's validation, the action he validated. *)
Lemma submission_outcome_becomes_status_witness :
  validation_status Sample.st_rejected Sample.action1 = Validation.refuse.
Proof.
  apply (@submission_outcome_becomes_status Reject Sample.t2 Sample.st_validated
           (Sample.post Sample.carol (lit "Incomplet")) 1 Sample.action1).
  - reflexivity.
  - vm_compute. repeat constructor.
  - vm_compute. discriminate.
Defined.

(** ** What the dispatcher adds *)

Lemma spec_unread_count_in_snoc (l : list Notification.t) (n : Notification.t)
    (u : User.t) :
  spec_unread_count_in (l ++ [n]) u
  = (spec_unread_count_in l u
     + (if User.eqb (Notification.destinataire n) u && negb (Notification.lue n)
        then 1 else 0))%nat.
Proof.
  unfold User.eqb.
  induction l as [|x r IH]; simpl.
  - destruct (_ =? _); [destruct (Notification.lue n)|]; reflexivity.
  - rewrite IH.
    destruct (User.id (Notification.destinataire x) =? User.id u);
      [destruct (Notification.lue x)|]; reflexivity.
Qed.

(** X5. Saving a ledger entry whose validator is not the author of the
    action adds exactly one notification: it is addressed to the author,
    unread, of the type that goes with the outcome, and linked to the
    action and to the entry. The author's unread count grows by one,
    every other user's count is unchanged, and one event carrying the
    new count goes to the author's group. *)
Theorem saving_an_entry_notifies_the_author (now : datetime.t) (st : State)
    (a : Action.t) (u : User.t) (s : Validation.STATUT) (c : option str) :
  User.eqb u (Action.auteur a) = false ->
  let st' := Validation_save_new now st a u s c in
  let author := Action.auteur a in
  let entry := Validation.mk (validation_seq st + 1) a u s c now in
  (exists n,
     notifications st' = notifications st ++ [n]
     /\ Notification.destinataire n = author
     /\ Notification.lue n = false
     /\ Notification.type n = type_of_outcome s
     /\ Notification.action n = Some a
     /\ Notification.validation n = Some entry
     /\ exists ev,
          channel_layer st' = channel_layer st ++ [ev]
          /\ ev_group ev = lit "notifications_" ++ str_of_N (User.id author)
          /\ ev_notification ev = notification_data n
          /\ ev_count ev = S (spec_unread_count st author))
  /\ spec_unread_count st' author = S (spec_unread_count st author)
  /\ (forall v, User.eqb author v = false ->
        spec_unread_count st' v = spec_unread_count st v).
Proof.
  intros Hne st' author entry. subst st' author entry.
  rewrite Validation_save_new_eq, Hne. cbn [notifications channel_layer].
  assert (Hown : User.eqb (Action.auteur a) (Action.auteur a) = true)
    by (unfold User.eqb; apply N.eqb_refl).
  split; [|split].
  - eexists. split; [reflexivity|]. cbn.
    repeat (split; [reflexivity|]).
    split; [unfold validation_message; cbn; now destruct s|].
    repeat (split; [reflexivity|]).
    eexists. split; [reflexivity|]. cbn.
    repeat (split; [reflexivity|]).
    rewrite count_unread_spec, spec_unread_count_in_snoc. cbn.
    rewrite Hown. unfold spec_unread_count. cbn. lia.
  - unfold spec_unread_count. cbn. rewrite spec_unread_count_in_snoc. cbn.
    rewrite Hown. cbn. lia.
  - intros v Hv. unfold spec_unread_count. cbn.
    rewrite spec_unread_count_in_snoc. cbn. rewrite Hv. cbn. lia.
Qed.

(** Bob validates Alice's action 1: Alice gets her first notification. *)
Lemma saving_an_entry_notifies_the_author_witness :
  spec_unread_count
    (Validation_save_new Sample.t1 Sample.st0 Sample.action1 Sample.bob
       Validation.valide None) Sample.alice
  = S (spec_unread_count Sample.st0 Sample.alice).
Proof.
  apply (@saving_an_entry_notifies_the_author Sample.t1 Sample.st0 Sample.action1
           Sample.bob Validation.valide None).
  reflexivity.
Defined.

(** ** The history of an action *)

Section OrderBy.
Context {A : Type} (before : A -> A -> bool).
Hypothesis before_total : forall x y, before x y = false -> before y x = true.

Lemma insert_row_perm (x : A) (l : list A) :
  Permutation (insert_row before x l) (x :: l).
Proof.
  induction l as [|y r IH]; simpl; [reflexivity|].
  destruct (before x y); [reflexivity|].
  rewrite IH. apply perm_swap.
Qed.

Lemma order_by_perm (l : list A) : Permutation (order_by before l) l.
Proof.
  induction l as [|x r IH]; simpl; [reflexivity|].
  rewrite insert_row_perm. now constructor.
Qed.

Lemma insert_row_sorted (x : A) (l : list A) :
  Sorted (fun a b => before a b = true) l ->
  Sorted (fun a b => before a b = true) (insert_row before x l).
Proof.
  induction l as [|y r IH]; simpl; intros Hs.
  - repeat constructor.
  - destruct (before x y) eqn:E.
    + constructor; [exact Hs|]. now constructor.
    + inversion Hs as [|? ? Hr Hhd]; subst.
      constructor; [now apply IH|].
      destruct r as [|z r']; simpl.
      * constructor. now apply before_total.
      * destruct (before x z); constructor.
        -- now apply before_total.
        -- now inversion Hhd.
Qed.

Lemma order_by_sorted (l : list A) :
  Sorted (fun a b => before a b = true) (order_by before l).
Proof.
  induction l as [|x r IH]; simpl; [constructor|].
  now apply insert_row_sorted.
Qed.

Lemma filter_insert_row (p : A -> bool) (x : A) (l : list A) :
  (forall y, p x = true -> p y = true -> before x y = true) ->
  filter p (insert_row before x l) = filter p (x :: l).
Proof.
  intros Hp. induction l as [|y r IH]; [reflexivity|].
  cbn [insert_row]. destruct (before x y) eqn:E; [reflexivity|].
  cbn [filter] in *. rewrite IH.
  destruct (p x) eqn:Hx; [|reflexivity].
  destruct (p y) eqn:Hy; [|reflexivity].
  rewrite (Hp y eq_refl Hy) in E. discriminate.
Qed.
End OrderBy.

Lemma datetime_eqb_eq (a b : datetime.t) : datetime.eqb a b = true -> a = b.
Proof.
  unfold datetime.eqb, datetime.compare. intros H.
  destruct (datetime.lexcmp (datetime.astuple a) (datetime.astuple b)) eqn:E;
    try discriminate.
  now apply datetime_facts.astuple_inj, datetime_facts.lexcmp_eq.
Qed.

Lemma by_date_validation_asc_total (x y : Validation.t) :
  by_date_validation_asc x y = false -> by_date_validation_asc y x = true.
Proof.
  unfold by_date_validation_asc. intros H.
  now apply datetime_facts.ltb_leb, datetime_facts.leb_false_ltb.
Qed.

Lemma validation_history_is_the_sorted_ledger_aux (st : State) (a : Action.t) :
  Permutation (get_validation_history st a) (Action_validations st a)
  /\ StronglySorted
       (fun x y => datetime.leb (Validation.date_validation x)
                     (Validation.date_validation y) = true)
       (get_validation_history st a).
Proof.
  unfold get_validation_history. split; [apply order_by_perm|].
  apply Sorted_StronglySorted.
  - intros x y z Hxy Hyz. eapply datetime_facts.leb_trans; eauto.
  - apply (order_by_sorted by_date_validation_asc by_date_validation_asc_total).
Qed.

(** X6. The history of an action holds exactly its ledger entries
    (each once), in ascending order of [date_validation], entries of one
    timestamp keeping the order of the table; [validation_history] shows
    it to the author of the action and to administrators, and sends
    every other user back with an error. *)
Theorem validation_history_is_the_sorted_ledger (st : State) (a : Action.t) :
  let history := get_validation_history st a in
  Permutation history (Action_validations st a)
  /\ StronglySorted
       (fun x y => datetime.leb (Validation.date_validation x)
                     (Validation.date_validation y) = true) history
  /\ (forall t,
        filter (fun v => datetime.eqb (Validation.date_validation v) t) history
        = filter (fun v => datetime.eqb (Validation.date_validation v) t)
            (Action_validations st a))
  /\ (forall request action_id u,
        user request = Some u ->
        Action_objects_get st action_id = Some a ->
        validation_history st request action_id
        = if User.eqb (Action.auteur a) u || User.role_eqb (User.role u) User.admin
          then ([], render "validations/history.html", Some (a, history))
          else ([(ERROR, lit "Vous n'avez pas accès à cet historique.")],
                redirect "dashboard", None)).
Proof.
  intros history. subst history. unfold get_validation_history.
  destruct (validation_history_is_the_sorted_ledger_aux st a) as (Hperm & Hsorted).
  unfold get_validation_history in Hperm, Hsorted.
  split; [exact Hperm|]. split; [exact Hsorted|]. split.
  - intros t. clear Hperm Hsorted. induction (Action_validations st a) as [|x r IH]; [reflexivity|].
    cbn [order_by]. rewrite filter_insert_row.
    + cbn [filter]. now rewrite IH.
    + intros y Hx Hy. apply datetime_eqb_eq in Hx, Hy.
      unfold by_date_validation_asc. rewrite Hx, Hy. apply datetime_facts.leb_refl.
  - intros request action_id u Hu Ha. unfold validation_history.
    rewrite Hu, Ha.
    destruct (User.eqb (Action.auteur a) u);
      destruct (User.role_eqb (User.role u) User.admin); reflexivity.
Qed.

Lemma StronglySorted_last {A} (R : A -> A -> Prop) (l : list A) (z : A) :
  StronglySorted R (l ++ [z]) -> Forall (fun x => R x z) l.
Proof.
  induction l as [|x r IH]; simpl; intros H; [constructor|].
  inversion H as [|? ? Hr Hx]; subst. constructor; [|now apply IH].
  rewrite Forall_forall in Hx. apply Hx, in_elt.
Qed.

(** X7. When no two ledger entries of an action share a timestamp, the
    entry that decides the status is the last one of the history. *)
Theorem latest_validation_is_last_of_history (st : State) (a : Action.t) :
  NoDup (map Validation.date_validation (Action_validations st a)) ->
  latest_validation st a = last (map Some (get_validation_history st a)) None.
Proof.
  intros Hnd.
  destruct (validation_history_is_the_sorted_ledger_aux st a) as (Hperm & Hsorted).
  unfold latest_validation.
  pose proof (latest_split (Action_validations st a)) as Hl.
  destruct (first (order_by by_date_validation_desc (Action_validations st a)))
    as [e|] eqn:E.
  - destruct Hl as (l1 & l2 & Hl & H1 & H2).
    destruct (exists_last (l := get_validation_history st a)) as (h & z & Hh).
    { intros Hnil. rewrite Hnil in Hperm. apply Permutation_nil in Hperm.
      rewrite Hperm in Hl. destruct l1; discriminate. }
    rewrite Hh, map_app. cbn [map]. rewrite last_last. f_equal.
    rewrite Hh in Hperm, Hsorted. apply StronglySorted_last in Hsorted.
    assert (Hz : In z (Action_validations st a)).
    { eapply Permutation_in; [exact Hperm|]. apply in_elt. }
    assert (He : In e (h ++ [z])).
    { eapply Permutation_in; [symmetry; exact Hperm|]. rewrite Hl. apply in_elt. }
    eapply NoDup_map_eq; eauto; [rewrite Hl; apply in_elt|].
    apply datetime_facts.leb_antisym.
    + apply in_app_or in He. destruct He as [He|[<-|[]]].
      * rewrite Forall_forall in Hsorted. now apply Hsorted.
      * apply datetime_facts.leb_refl.
    + rewrite Hl in Hz. apply in_app_or in Hz.
      destruct Hz as [Hz|[<-|Hz]]; auto using datetime_facts.ltb_leb,
        datetime_facts.leb_refl.
  - unfold get_validation_history. rewrite Hl. reflexivity.
Qed.

(** Bob's validation at 09:30 and Carol's rejection at 10:45. *)
Lemma latest_validation_is_last_of_history_witness :
  latest_validation Sample.st_rejected Sample.action1
  = last (map Some (get_validation_history Sample.st_rejected Sample.action1)) None.
Proof.
  apply (@latest_validation_is_last_of_history Sample.st_rejected Sample.action1).
  vm_compute. repeat constructor; simpl; intuition discriminate.
Defined.

(** On equal timestamps the two differ: the status follows the first
    entry scanned, the history ends with the last one. *)
Lemma latest_validation_and_history_on_a_tie :
  option_map Validation.id (latest_validation Sample.st_tie Sample.action1) = Some 1
  /\ map Validation.id (get_validation_history Sample.st_tie Sample.action1) = [1; 2].
Proof. vm_compute. split; reflexivity. Qed.

(** ** Reading and deleting notifications *)

Lemma User_eqb_trans_false (a b c : User.t) :
  User.eqb a b = true -> User.eqb c b = false -> User.eqb a c = false.
Proof.
  unfold User.eqb. intros H1 H2. apply N.eqb_eq in H1. apply N.eqb_neq in H2.
  apply N.eqb_neq. congruence.
Qed.

Lemma spec_unread_count_in_map (f : Notification.t -> Notification.t)
    (l : list Notification.t) (v : User.t) :
  (forall n, In n l ->
     User.eqb (Notification.destinataire (f n)) v
     = User.eqb (Notification.destinataire n) v
     /\ (User.eqb (Notification.destinataire n) v = true ->
         Notification.lue (f n) = Notification.lue n)) ->
  spec_unread_count_in (map f l) v = spec_unread_count_in l v.
Proof.
  unfold User.eqb. induction l as [|n r IH]; intros H; [reflexivity|].
  cbn [map spec_unread_count_in].
  destruct (H n (or_introl eq_refl)) as [H1 H2]. rewrite H1.
  rewrite IH by (intros; apply H; now right).
  destruct (User.id (Notification.destinataire n) =? User.id v); [|reflexivity].
  now rewrite H2.
Qed.

(** X8. [mark_all_notifications_read] leaves the requester with no
    unread notification and reports how many it marked (the former
    unread count); it changes nothing but the [lue] flag, does not touch
    what other users have unread, and doing it again changes nothing. *)
Theorem mark_all_read_clears_the_count (st : State) (request : HttpRequest)
    (u : User.t) :
  user request = Some u ->
  let r := mark_all_notifications_read st request in
  spec_unread_count (new_state r) u = O
  /\ flash r = [(SUCCESS, str_of_N (N.of_nat (spec_unread_count st u))
                            ++ lit " notification(s) marquée(s) comme lue(s).")]
  /\ (forall v, User.eqb v u = false ->
        spec_unread_count (new_state r) v = spec_unread_count st v)
  /\ map (fun n => set_lue n true) (notifications (new_state r))
     = map (fun n => set_lue n true) (notifications st)
  /\ new_state (mark_all_notifications_read (new_state r) request) = new_state r.
Proof.
  intros Hu r. subst r. unfold mark_all_notifications_read, login_required.
  rewrite Hu. cbn [new_state flash fst snd]. unfold spec_unread_count.
  cbn [notifications set_notifications].
  split; [|split; [|split; [|split]]].
  - unfold unread, User.eqb.
    induction (notifications st) as [|n l IH]; [reflexivity|].
    cbn [map spec_unread_count_in].
    destruct (User.id (Notification.destinataire n) =? User.id u) eqn:E;
      destruct (Notification.lue n) eqn:L; cbn; rewrite ?E, ?L; exact IH.
  - now rewrite count_unread_spec.
  - intros v Hv. apply spec_unread_count_in_map. intros n _.
    destruct (unread u n) eqn:Eu; [|split; reflexivity].
    cbn. split; [reflexivity|]. intros Hd. exfalso.
    unfold unread in Eu. apply andb_true_iff in Eu. destruct Eu as [E _].
    rewrite (User_eqb_trans_false _ _ _ E Hv) in Hd. discriminate.
  - rewrite map_map. apply map_ext. intros n.
    destruct (unread u n); [|reflexivity]. now destruct n.
  - unfold set_notifications. cbn. f_equal. rewrite map_map.
    apply map_ext. intros n. unfold unread.
    destruct (User.eqb (Notification.destinataire n) u) eqn:E; cbn; [|now rewrite E].
    destruct (Notification.lue n) eqn:L; cbn; rewrite E; cbn; now rewrite ?L.
Qed.

Lemma mark_all_read_clears_the_count_witness :
  spec_unread_count
    (new_state (mark_all_notifications_read Sample.st_rejected
                  (Sample.get Sample.alice))) Sample.alice = O.
Proof.
  apply (@mark_all_read_clears_the_count Sample.st_rejected
           (Sample.get Sample.alice) Sample.alice).
  reflexivity.
Defined.

Lemma filter_key_absent (q : Notification.t -> bool) (k : N)
    (r : list Notification.t) :
  ~ In k (map Notification.id r) ->
  filter (fun n => (Notification.id n =? k) && q n) r = [].
Proof.
  induction r as [|y r IH]; intros Hk; [reflexivity|]. cbn [filter].
  destruct (N.eqb_spec (Notification.id y) k) as [Ey|Ey].
  - exfalso. apply Hk. now left.
  - cbn. apply IH. intros H. apply Hk. now right.
Qed.

Lemma own_notifications_unique (st : State) (u : User.t) (notif_id : N) :
  NoDup (map Notification.id (notifications st)) ->
  own_notifications st u notif_id = []
  \/ exists n, own_notifications st u notif_id = [n].
Proof.
  unfold own_notifications.
  induction (notifications st) as [|x r IH]; intros Hnd; [now left|].
  inversion Hnd as [|? ? Hx Hr]; subst. cbn [filter].
  destruct ((Notification.id x =? notif_id)
            && User.eqb (Notification.destinataire x) u) eqn:E; [|auto].
  right. exists x. f_equal.
  apply andb_true_iff in E. destruct E as [E _]. apply N.eqb_eq in E.
  apply filter_key_absent. now rewrite <- E.
Qed.

Lemma same_row (l : list Notification.t) (n row : Notification.t) :
  NoDup (map Notification.id l) -> In n l -> In row l ->
  Notification.id row = Notification.id n -> row = n.
Proof. intros Hnd Hn Hr E. eapply NoDup_map_eq; eauto. Qed.

(** X9. With distinct primary keys, [mark_notification_read] only acts
    on a notification of the requester: it answers [Http404] and leaves
    the store as it was when the key is unknown or belongs to someone
    else; otherwise it sets [lue] on that one row and changes no other
    row, so what every other user has unread is unchanged and the
    requester's count never grows. It never meets several rows. *)
Theorem mark_notification_read_is_owner_only (st : State) (request : HttpRequest)
    (GET : list (str * str)) (notif_id : N) (u : User.t) :
  NoDup (map Notification.id (notifications st)) ->
  user request = Some u ->
  let r := mark_notification_read st request GET notif_id in
  let mine (row : Notification.t) :=
    (Notification.id row =? notif_id) && User.eqb (Notification.destinataire row) u in
  notifications (fst (fst r))
  = map (fun row => if mine row then set_lue row true else row) (notifications st)
  /\ (snd r = not_found <-> forall row, In row (notifications st) -> mine row = false)
  /\ (snd r = not_found -> fst (fst r) = st)
  /\ snd r <> MultipleObjectsReturned
  /\ (forall v, User.eqb v u = false ->
        spec_unread_count (fst (fst r)) v = spec_unread_count st v)
  /\ (spec_unread_count (fst (fst r)) u <= spec_unread_count st u)%nat.
Proof.
  intros Hnd Hu r mine.
  assert (Hmap : notifications (fst (fst r))
            = map (fun row => if mine row then set_lue row true else row)
                (notifications st)
            /\ (snd r = not_found <->
                forall row, In row (notifications st) -> mine row = false)
            /\ (snd r = not_found -> fst (fst r) = st)
            /\ snd r <> MultipleObjectsReturned).
  { subst r. unfold mark_notification_read. rewrite Hu.
    destruct (own_notifications_unique st u notif_id Hnd) as [E|[n E]]; rewrite E.
    - assert (Hnone : forall row, In row (notifications st) -> mine row = false).
      { intros row Hin. destruct (mine row) eqn:Em; [|reflexivity].
        assert (In row (own_notifications st u notif_id))
          by (apply filter_In; auto).
        rewrite E in H. destruct H. }
      cbn. split; [|split; [tauto|split; [auto|discriminate]]].
      rewrite <- (map_id (notifications st)) at 1. apply map_ext_in.
      intros row Hin. now rewrite Hnone.
    - assert (Hin : In n (own_notifications st u notif_id)) by (rewrite E; now left).
      apply filter_In in Hin. destruct Hin as [Hin Hm].
      assert (Hmine : mine n = true) by exact Hm.
      apply andb_true_iff in Hm. destruct Hm as [Hid _]. apply N.eqb_eq in Hid.
      assert (Hrows : notifications (Notification_save st (set_lue n true))
                = map (fun row => if mine row then set_lue row true else row)
                    (notifications st)).
      { cbn. apply map_ext_in. intros row Hrow.
        destruct (N.eqb_spec (Notification.id row) (Notification.id n)) as [Er|Er].
        - assert (row = n) by (eapply same_row; eauto). subst row.
          now rewrite Hmine.
        - assert (Hrow' : mine row = false).
          { unfold mine. rewrite <- Hid.
            destruct (N.eqb_spec (Notification.id row) (Notification.id n));
              [congruence|reflexivity]. }
          now rewrite Hrow'. }
      cbn [set_lue Notification.action].
      destruct (Notification.action n); cbn [fst snd]; rewrite Hrows;
        (split; [reflexivity|]);
        (split; [split; [discriminate|intros H; rewrite (H n Hin) in Hmine;
                                      discriminate]|]);
        (split; discriminate). }
  destruct Hmap as (Hrows & Hnf & Hsame & Hmult).
  split; [exact Hrows|]. split; [exact Hnf|]. split; [exact Hsame|].
  split; [exact Hmult|]. unfold spec_unread_count. rewrite Hrows. split.
  - intros v Hv. apply spec_unread_count_in_map. intros row _.
    destruct (mine row) eqn:Em; [|split; reflexivity].
    cbn. split; [reflexivity|]. intros Hd. exfalso. subst mine. cbn in Em.
    apply andb_true_iff in Em. destruct Em as [_ Em].
    rewrite (User_eqb_trans_false _ _ _ Em Hv) in Hd. discriminate.
  - clear. induction (notifications st) as [|x l IH]; [cbn; lia|].
    cbn [map spec_unread_count_in].
    destruct (mine x); cbn;
      destruct (User.id (Notification.destinataire x) =? User.id u);
      try destruct (Notification.lue x); lia.
Qed.

(** Alice marks her first notification, which has key 1, as read. *)
Lemma mark_notification_read_is_owner_only_witness :
  map Notification.lue
    (notifications
       (fst (fst (mark_notification_read Sample.st_rejected
                    (Sample.get Sample.alice) [] 1))))
  = [true; false].
Proof.
  rewrite (proj1 (@mark_notification_read_is_owner_only Sample.st_rejected
                    (Sample.get Sample.alice) [] 1 Sample.alice
                    ltac:(vm_compute; repeat constructor; simpl; intuition discriminate)
                    eq_refl)).
  vm_compute. reflexivity.
Defined.

(** X10. With distinct primary keys, [delete_notification] only removes
    a notification of the requester: it answers [Http404] and leaves the
    store as it was when the key is unknown or belongs to someone else;
    otherwise it removes that one row, keeps every other row in place,
    leaves what other users received untouched and does not move the
    key counter back. It never meets several rows. *)
Theorem delete_notification_is_owner_only (st : State) (request : HttpRequest)
    (notif_id : N) (u : User.t) :
  NoDup (map Notification.id (notifications st)) ->
  user request = Some u ->
  let r := delete_notification st request notif_id in
  let mine (row : Notification.t) :=
    (Notification.id row =? notif_id) && User.eqb (Notification.destinataire row) u in
  notifications (fst (fst r)) = filter (fun row => negb (mine row)) (notifications st)
  /\ (snd r = not_found <-> forall row, In row (notifications st) -> mine row = false)
  /\ (snd r = not_found -> fst (fst r) = st)
  /\ snd r <> MultipleObjectsReturned
  /\ notification_seq (fst (fst r)) = notification_seq st
  /\ (forall v, User.eqb v u = false ->
        received v (notifications (fst (fst r))) = received v (notifications st)).
Proof.
  intros Hnd Hu r mine.
  assert (Hmain : notifications (fst (fst r))
            = filter (fun row => negb (mine row)) (notifications st)
            /\ (snd r = not_found <->
                forall row, In row (notifications st) -> mine row = false)
            /\ (snd r = not_found -> fst (fst r) = st)
            /\ snd r <> MultipleObjectsReturned
            /\ notification_seq (fst (fst r)) = notification_seq st).
  { subst r. unfold delete_notification. rewrite Hu.
    destruct (own_notifications_unique st u notif_id Hnd) as [E|[n E]]; rewrite E.
    - assert (Hnone : forall row, In row (notifications st) -> mine row = false).
      { intros row Hin. destruct (mine row) eqn:Em; [|reflexivity].
        assert (H : In row (own_notifications st u notif_id))
          by (apply filter_In; auto).
        rewrite E in H. destruct H. }
      cbn. split; [|split; [tauto|split; [auto|split; [discriminate|reflexivity]]]].
      symmetry. apply forallb_filter_id. apply forallb_forall.
      intros row Hin. now rewrite Hnone.
    - assert (Hin : In n (own_notifications st u notif_id)) by (rewrite E; now left).
      apply filter_In in Hin. destruct Hin as [Hin Hm].
      assert (Hmine : mine n = true) by exact Hm.
      apply andb_true_iff in Hm. destruct Hm as [Hid _]. apply N.eqb_eq in Hid.
      cbn [fst snd]. split.
      { cbn. apply filter_ext_in. intros row Hrow.
        destruct (N.eqb_spec (Notification.id row) (Notification.id n)) as [Er|Er].
        - assert (row = n) by (eapply same_row; eauto). subst row.
          now rewrite Hmine.
        - assert (Hrow' : mine row = false).
          { unfold mine. rewrite <- Hid.
            destruct (N.eqb_spec (Notification.id row) (Notification.id n));
              [congruence|reflexivity]. }
          now rewrite Hrow'. }
      split; [split; [discriminate|intros H; rewrite (H n Hin) in Hmine;
                                   discriminate]|].
      split; [discriminate|]. split; [discriminate|reflexivity]. }
  destruct Hmain as (Hrows & Hnf & Hsame & Hmult & Hseq).
  repeat (split; [assumption|]).
  intros v Hv. rewrite Hrows. unfold received.
  clear Hnd Hrows Hnf Hsame Hmult Hseq.
  induction (notifications st) as [|x l IH]; [reflexivity|].
  cbn [filter]. destruct (mine x) eqn:Em; cbn [negb filter]; rewrite IH.
  - unfold mine in Em. apply andb_true_iff in Em. destruct Em as [_ Em].
    now rewrite (User_eqb_trans_false _ _ _ Em Hv).
  - reflexivity.
Qed.

(** Alice deletes her first notification; the second one stays. *)
Lemma delete_notification_is_owner_only_witness :
  map Notification.id
    (notifications
       (fst (fst (delete_notification Sample.st_rejected
                    (Sample.get Sample.alice) 1))))
  = [2].
Proof.
  rewrite (proj1 (@delete_notification_is_owner_only Sample.st_rejected
                    (Sample.get Sample.alice) 1 Sample.alice
                    ltac:(vm_compute; repeat constructor; simpl; intuition discriminate)
                    eq_refl)).
  vm_compute. reflexivity.
Defined.

(** ** The life of a service *)

(** X11. A service is never both active and expired. An open service
    is active before its closing date and expired after it; at the
    closing date itself it is neither. A closed service is never
    active. *)
Theorem service_active_or_expired (now : datetime.t) (s : Service.t) :
  (Service.is_active now s = true -> Service_is_expired now s = false)
  /\ (Service.statut s = Service.ouvert ->
      Service.is_active now s || Service_is_expired now s
      = negb (datetime.eqb (Service.date_fermeture s) now))
  /\ (Service.statut s = Service.ferme -> Service.is_active now s = false)
  /\ (Service.is_active now s = true <->
      Service.statut s = Service.ouvert
      /\ datetime.ltb now (Service.date_fermeture s) = true).
Proof.
  unfold Service.is_active, Service_is_expired, datetime.gtb, datetime.ltb,
    datetime.eqb, datetime.compare.
  rewrite (datetime_facts.lexcmp_opp (datetime.astuple (Service.date_fermeture s))
             (datetime.astuple now)).
  destruct (Service.statut s);
    destruct (datetime.lexcmp (datetime.astuple (Service.date_fermeture s))
                (datetime.astuple now)); cbn;
    repeat split; intros; try discriminate; try reflexivity; try tauto;
    intuition discriminate.
Qed.

(** ** The admin action that validates a selection *)

Lemma clock_ahead_eqb now st (a b : Action.t) :
  Action.eqb a b = true -> clock_ahead now st a -> clock_ahead now st b.
Proof.
  unfold clock_ahead. intros E. now rewrite (Action_validations_eqb st _ _ E).
Qed.

Lemma validation_status_eqb st (a b : Action.t) :
  Action.eqb a b = true -> validation_status st a = validation_status st b.
Proof.
  intros E. unfold validation_status, latest_validation.
  now rewrite (Action_validations_eqb st _ _ E).
Qed.

(** One turn of the loop: what it appends, and what it keeps of the
    status of any action [a]. *)
Lemma validate_actions_step_spec now request_user st count warnings x :
  let '(st1, count1, warnings1) :=
    validate_actions_step now request_user (st, count, warnings) x in
  (exists new,
     validations st1 = validations st ++ new
     /\ count1 = (count + List.length new)%nat
     /\ Forall (fun v => Validation.statut v = Validation.valide
                         /\ Validation.validateur v = request_user
                         /\ Validation.commentaire v = None
                         /\ Validation.action v = x
                         /\ validation_status st x <> Validation.valide) new)
  /\ (forall a, validation_status st a = Validation.valide ->
                validation_status st1 a = Validation.valide)
  /\ (forall a, clock_ahead now st a ->
                validation_status st1 a = Validation.valide
                \/ clock_ahead now st1 a)
  /\ (clock_ahead now st x -> validation_status st1 x = Validation.valide).
Proof.
  unfold validate_actions_step.
  destruct (Validation.statut_eqb (validation_status st x) Validation.valide) eqn:E.
  - assert (Hx : validation_status st x = Validation.valide)
      by (destruct (validation_status st x); try discriminate; reflexivity).
    split; [exists []; rewrite app_nil_r; repeat split; auto|].
    repeat split; auto.
  - assert (Hx : validation_status st x <> Validation.valide)
      by (intros H; rewrite H in E; discriminate).
    unfold Validation_objects_create.
    assert (Hafter : forall a, clock_ahead now st a -> Action.eqb x a = true ->
              validation_status
                (Validation_save_new now st x request_user Validation.valide None) a
              = Validation.valide).
    { intros a Hc Ea. rewrite validation_status_after_save, Ea.
      destruct (latest_validation st a) as [y|] eqn:Ey; [|reflexivity].
      unfold latest_validation in Ey.
      eapply Forall_first_order_by in Ey; [|exact Hc]. cbn in Ey.
      now rewrite (ltb_not_leb _ _ Ey). }
    split; [|split; [|split]].
    + eexists [_]. split; [apply Validation_save_new_validations|].
      split; [cbn; lia|]. repeat constructor. exact Hx.
    + intros a Ha. rewrite validation_status_after_save.
      destruct (Action.eqb x a) eqn:Ea; [|exact Ha].
      rewrite (validation_status_eqb st _ _ Ea) in Hx. contradiction.
    + intros a Hc. destruct (Action.eqb x a) eqn:Ea; [left; now apply Hafter|].
      right. unfold clock_ahead. rewrite Action_validations_save, Ea, app_nil_r.
      exact Hc.
    + intros Hc. apply Hafter; [exact Hc|]. unfold Action.eqb. apply N.eqb_refl.
Qed.

Lemma validate_actions_loop now request_user (queryset : list Action.t) :
  forall st count warnings,
  let '(st1, count1, warnings1) :=
    fold_left (validate_actions_step now request_user) queryset
      (st, count, warnings) in
  (exists new,
     validations st1 = validations st ++ new
     /\ count1 = (count + List.length new)%nat
     /\ Forall (fun v => Validation.statut v = Validation.valide
                         /\ Validation.validateur v = request_user
                         /\ Validation.commentaire v = None
                         /\ In (Validation.action v) queryset
                         /\ validation_status st (Validation.action v)
                            <> Validation.valide) new)
  /\ (forall a, validation_status st a = Validation.valide ->
                validation_status st1 a = Validation.valide)
  /\ (forall a, In a queryset -> clock_ahead now st a ->
                validation_status st1 a = Validation.valide).
Proof.
  induction queryset as [|x r IH]; intros st count warnings.
  - cbn. split; [exists []; rewrite app_nil_r; repeat split; auto|].
    split; [auto|intros a []].
  - cbn [fold_left].
    pose proof (validate_actions_step_spec now request_user st count warnings x)
      as Hstep.
    destruct (validate_actions_step now request_user (st, count, warnings) x)
      as [[st1 count1] warnings1].
    destruct Hstep as ((new1 & Hv1 & Hc1 & Hf1) & Hkeep1 & Hclock1 & Hx1).
    specialize (IH st1 count1 warnings1).
    destruct (fold_left _ r (st1, count1, warnings1)) as [[st2 count2] warnings2].
    destruct IH as ((new2 & Hv2 & Hc2 & Hf2) & Hkeep2 & Hall2).
    split; [|split].
    + exists (new1 ++ new2). rewrite Hv2, Hv1, app_assoc.
      split; [reflexivity|]. split; [rewrite length_app; lia|].
      apply Forall_app. split.
      * eapply Forall_impl; [|exact Hf1].
        intros v (H1 & H2 & H3 & H4 & H5). subst x.
        split; [exact H1|]. split; [exact H2|]. split; [exact H3|].
        split; [now left|exact H5].
      * eapply Forall_impl; [|exact Hf2].
        intros v (H1 & H2 & H3 & H4 & H5).
        split; [exact H1|]. split; [exact H2|]. split; [exact H3|].
        split; [now right|].
        intros Hval. apply H5. now apply Hkeep1.
    + intros a Ha. auto.
    + intros a [<-|Hin] Hc.
      * apply Hkeep2, Hx1, Hc.
      * destruct (Hclock1 a Hc) as [Hval|Hc1']; [now apply Hkeep2|].
        now apply Hall2.
Qed.

(** X12. The admin action [validate_actions], run at a time later than
    every ledger entry of the selected actions, leaves every selected
    action validated. Every entry it appends is a [valide] entry, signed
    by the requester and without comment, for a selected action that was
    not validated before; it appends none for any other action, and the
    number it reports is the number of entries it appended. *)
Theorem validate_actions_validates_the_selection (now : datetime.t) (st : State)
    (request_user : User.t) (queryset : list Action.t) :
  (forall a, In a queryset -> clock_ahead now st a) ->
  let r := validate_actions now st request_user queryset in
  (forall a, In a queryset -> validation_status (fst r) a = Validation.valide)
  /\ exists new,
       validations (fst r) = validations st ++ new
       /\ Forall (fun v => Validation.statut v = Validation.valide
                           /\ Validation.validateur v = request_user
                           /\ Validation.commentaire v = None
                           /\ In (Validation.action v) queryset
                           /\ validation_status st (Validation.action v)
                              <> Validation.valide) new
       /\ hd_error (snd r)
          = Some (SUCCESS, str_of_N (N.of_nat (List.length new))
                             ++ lit " action(s) validée(s) avec succès.").
Proof.
  intros Hclock r. subst r. unfold validate_actions.
  pose proof (validate_actions_loop now request_user queryset st O []) as H.
  destruct (fold_left _ queryset (st, O, [])) as [[st1 count1] warnings1].
  destruct H as ((new & Hv & Hc & Hf) & _ & Hall).
  cbn [fst snd]. split; [intros a Ha; apply Hall; auto|].
  exists new. split; [exact Hv|]. split; [exact Hf|].
  cbn. now rewrite Hc.
Qed.

(** Bob selects actions 1 and 2, none of which has a ledger entry yet. *)
Lemma validate_actions_validates_the_selection_witness :
  validation_status
    (fst (validate_actions Sample.t1 Sample.st0 Sample.bob
            [Sample.action1; Sample.action2])) Sample.action2
  = Validation.valide.
Proof.
  apply (@validate_actions_validates_the_selection Sample.t1 Sample.st0 Sample.bob
           [Sample.action1; Sample.action2]).
  - intros a _. vm_compute. constructor.
  - right. now left.
Defined.

(** ** The previews of the admin lists *)

Lemma preview_spec (limit : nat) (text : str) :
  (List.length (preview limit text) <= limit + 3)%nat
  /\ firstn limit (preview limit text) = firstn limit text
  /\ ((List.length text <= limit)%nat -> preview limit text = text)
  /\ ((limit < List.length text)%nat ->
      List.length (preview limit text) = (limit + 3)%nat
      /\ skipn limit (preview limit text) = lit "...").
Proof.
  unfold preview.
  destruct (Nat.ltb_spec limit (List.length text)) as [H|H].
  - assert (Hl : List.length (firstn limit text) = limit)
      by (rewrite length_firstn; lia).
    assert (Hd : List.length (lit "...") = 3%nat) by reflexivity.
    split; [rewrite length_app, Hl, Hd; lia|].
    split; [|split; [lia|intros _; split]].
    + rewrite firstn_app, Hl, Nat.sub_diag, firstn_0, app_nil_r.
      rewrite firstn_firstn. f_equal. lia.
    + rewrite length_app, Hl, Hd. reflexivity.
    + rewrite skipn_app, Hl, Nat.sub_diag. cbn [skipn].
      rewrite skipn_all2 by lia. reflexivity.
  - split; [lia|]. split; [reflexivity|]. split; [reflexivity|lia].
Qed.

(** X13. The previews of the admin lists never exceed 83 characters for
    a notification message and 53 for an action description; a text
    within the limit (80, 50) is shown whole, a longer one is cut to the
    limit and followed by three dots; in both cases the preview starts
    like the text. *)
Theorem admin_previews_are_bounded (n : Notification.t) (a : Action.t) :
  let message := Notification.message n in
  let description := Action.description a in
  (List.length (get_message_preview n) <= 83)%nat
  /\ (List.length (get_description_preview a) <= 53)%nat
  /\ firstn 80 (get_message_preview n) = firstn 80 message
  /\ firstn 50 (get_description_preview a) = firstn 50 description
  /\ ((List.length message <= 80)%nat -> get_message_preview n = message)
  /\ ((List.length description <= 50)%nat -> get_description_preview a = description)
  /\ ((80 < List.length message)%nat ->
      skipn 80 (get_message_preview n) = lit "...")
  /\ ((50 < List.length description)%nat ->
      skipn 50 (get_description_preview a) = lit "...").
Proof.
  intros message description. unfold get_message_preview, get_description_preview.
  destruct (preview_spec 80 message) as (H1 & H2 & H3 & H4).
  destruct (preview_spec 50 description) as (K1 & K2 & K3 & K4).
  repeat split; auto; intros H; [now apply H4|now apply K4].
Qed.

(** ** Decimal numerals and group names *)

From Stdlib Require Import DecimalN DecimalPos DecimalFacts.

Lemma lit_uint (d : Decimal.uint) :
  lit (NilEmpty.string_of_uint d) = uint_chars d.
Proof.
  unfold lit. induction d; cbn [NilEmpty.string_of_uint list_ascii_of_string map];
    [reflexivity|..];
    cbn [uint_chars]; rewrite <- IHd; reflexivity.
Qed.

Lemma to_uint_nonnil (n : N) : N.to_uint n <> Decimal.Nil.
Proof.
  destruct n as [|p]; [discriminate|]. apply Unsigned.to_uint_nonnil.
Qed.

Lemma str_of_N_chars (n : N) : str_of_N n = uint_chars (N.to_uint n).
Proof.
  unfold str_of_N. rewrite <- lit_uint.
  pose proof (to_uint_nonnil n) as H.
  destruct (N.to_uint n); [now elim H|..]; reflexivity.
Qed.

Lemma uint_chars_inj (d : Decimal.uint) : forall d',
  uint_chars d = uint_chars d' -> d = d'.
Proof.
  induction d; intros d' H; destruct d'; cbn in H; try discriminate;
    try reflexivity; injection H as H; f_equal; auto.
Qed.

Lemma str_of_N_inj (n m : N) : str_of_N n = str_of_N m -> n = m.
Proof.
  rewrite !str_of_N_chars. intros H.
  apply uint_chars_inj in H. now apply DecimalN.Unsigned.to_uint_inj.
Qed.

(** X14. Group names tell users apart: the group a consumer joins on
    [connect] is the group an event is sent to exactly when the consumer
    belongs to the recipient of the event, so a push reaches the
    connections of its recipient and no other; a connection without an
    authenticated user is closed and joins no group. *)
Theorem push_reaches_only_its_recipient (st st0 : State) (u v : User.t)
    (data : NotificationData) (unread_count : nat) :
  NotificationConsumer.connect st0 None = NotificationConsumer.Closed
  /\ exists self frames ev,
       NotificationConsumer.connect st0 (Some v)
       = NotificationConsumer.Accepted self frames
       /\ NotificationConsumer.user self = v
       /\ channel_layer (send_websocket_notification st u data unread_count)
          = channel_layer st ++ [ev]
       /\ ev_notification ev = data /\ ev_count ev = unread_count
       /\ subscribed self ev = User.eqb v u.
Proof.
  split; [reflexivity|].
  eexists _, _, _. split; [reflexivity|]. split; [reflexivity|].
  split; [reflexivity|]. split; [reflexivity|]. split; [reflexivity|].
  unfold subscribed, User.eqb. cbn.
  destruct (N.eqb_spec (User.id v) (User.id u)) as [E|E].
  - rewrite E. apply str_eqb_refl.
  - destruct (str_eqb _ _) eqn:Es; [|reflexivity].
    apply str_eqb_eq, app_inv_head, str_of_N_inj in Es. contradiction.
Qed.

(** ** The frames of the consumer are JSON *)

Lemma digits_value_uint (d : Decimal.uint) : forall acc,
  fold_left (fun acc c => (acc * 10 + Z.of_N (c - 48))%Z) (uint_chars d) acc
  = (acc * 10 ^ Z.of_N (Unsigned.usize d) + Z.of_N (Unsigned.of_lu (Decimal.rev d)))%Z.
Proof.
  induction d; intros acc; [cbn; lia|..];
    cbn [uint_chars fold_left Unsigned.usize]; rewrite IHd;
    match goal with
    | |- context [Decimal.rev (?D d)] =>
        change (Decimal.rev (D d)) with (Decimal.revapp d (D Decimal.Nil));
        rewrite (Unsigned.of_lu_revapp d (D Decimal.Nil));
        let k := eval vm_compute in (Z.of_N (Unsigned.of_lu (D Decimal.Nil))) in
        rewrite N2Z.inj_add, N2Z.inj_mul, N2Z.inj_pow, N2Z.inj_succ,
          Z.pow_succ_r by lia;
        change (Z.of_N (Unsigned.of_lu (D Decimal.Nil))) with k
    end;
    match goal with
    | |- context [Z.of_N (?c - 48)] =>
        let k := eval vm_compute in (Z.of_N (c - 48)) in
        change (Z.of_N (c - 48)) with k
    end;
    change (Z.of_N 10) with 10%Z; ring.
Qed.

Lemma digits_value_to_uint (n : N) :
  digits_value (uint_chars (N.to_uint n)) = Z.of_N n.
Proof.
  unfold digits_value. rewrite digits_value_uint.
  rewrite <- Unsigned.of_uint_alt.
  change (Pos.of_uint (N.to_uint n)) with (N.of_uint (N.to_uint n)).
  rewrite DecimalN.Unsigned.of_to. lia.
Qed.

Lemma scanstring_plain (k : str) : forall fuel acc rest,
  forallb plain k = true -> (List.length k < fuel)%nat ->
  scanstring fuel acc (k ++ 34 :: rest) = Some (rev acc ++ k, rest).
Proof.
  induction k as [|c k IH]; intros fuel acc rest Hk Hf;
    (destruct fuel as [|fuel]; [cbn in Hf; lia|]); cbn [app scanstring].
  - cbn. now rewrite List.app_nil_r.
  - cbn [forallb] in Hk. apply andb_true_iff in Hk. destruct Hk as [Hc Hk].
    unfold plain in Hc. apply andb_true_iff in Hc. destruct Hc as [Hc H32].
    apply andb_true_iff in Hc. destruct Hc as [H34 H92].
    apply negb_true_iff in H34, H92, H32. rewrite H34, H92, H32.
    rewrite IH by (auto; cbn in Hf; lia).
    cbn [rev]. now rewrite <- List.app_assoc.
Qed.

Lemma scan_once_string (fuel : nat) (v rest : str) :
  forallb plain v = true ->
  scan_once (S fuel) (34 :: v ++ 34 :: rest) = Some (PyStr v, rest).
Proof.
  intros Hv. cbn [scan_once]. change (34 =? 34) with true. cbv iota.
  rewrite scanstring_plain; [reflexivity|exact Hv|].
  rewrite List.length_app. cbn. lia.
Qed.

Lemma JSONObject_pair (fuel : nat) (pairs : list (str * pyobj)) (k vs : str) :
  forallb plain k = true -> skip_ws vs = vs ->
  JSONObject (S fuel) pairs (k ++ 34 :: 58 :: 32 :: vs)
  = match scan_once fuel vs with
    | None => None
    | Some (value, r2) =>
        match skip_ws r2 with
        | [] => None
        | c2 :: r3 =>
            if c2 =? 125 then Some (PyDict (rev ((k, value) :: pairs)), r3)
            else if c2 =? 44 then
              match skip_ws r3 with
              | [] => None
              | c3 :: r4 =>
                  if c3 =? 34 then JSONObject fuel ((k, value) :: pairs) r4
                  else None
              end
            else None
        end
    end.
Proof.
  intros Hk Hvs. cbn [JSONObject].
  rewrite scanstring_plain; [|exact Hk|rewrite List.length_app; cbn; lia].
  cbn [rev app]. change (skip_ws (58 :: 32 :: vs)) with (58 :: 32 :: vs).
  cbv iota. change (58 =? 58) with true. cbv iota.
  change (skip_ws (32 :: vs)) with (skip_ws vs). rewrite Hvs. reflexivity.
Qed.

Lemma uint_chars_digits (d : Decimal.uint) : forallb is_digit (uint_chars d) = true.
Proof.
  induction d; cbn [uint_chars forallb]; [reflexivity|..]; rewrite IHd; reflexivity.
Qed.

Lemma span_digits_app (ds rest : str) :
  forallb is_digit ds = true ->
  match rest with [] => True | c :: _ => is_digit c = false end ->
  span_digits (ds ++ rest) = (ds, rest).
Proof.
  intros Hd Hr. induction ds as [|c r IH]; cbn [app].
  - destruct rest as [|c r]; [reflexivity|]. cbn [span_digits]. now rewrite Hr.
  - cbn [forallb] in Hd. apply andb_true_iff in Hd. destruct Hd as [Hc Hd].
    cbn [span_digits]. rewrite Hc, (IH Hd). reflexivity.
Qed.

Lemma str_of_N_head (n : N) :
  str_of_N n = [48]
  \/ exists c r, str_of_N n = c :: r /\ is_digit c = true /\ (c =? 48) = false.
Proof.
  rewrite str_of_N_chars.
  pose proof (DecimalN.Unsigned.to_of (N.to_uint n)) as H.
  rewrite DecimalN.Unsigned.of_to in H.
  pose proof (to_uint_nonnil n) as Hn.
  destruct (N.to_uint n) as [|d|d|d|d|d|d|d|d|d|d] eqn:E; [now elim Hn|..];
    try (right; eexists _, _; split; [reflexivity|]; split; reflexivity).
  left. rewrite DecimalFacts.unorm_D0 in H. unfold Decimal.unorm in H.
  destruct (Decimal.nzhead d) eqn:Ez; try (injection H as H; now subst);
    try discriminate.
  exfalso. now apply (DecimalFacts.nzhead_nonzero d u).
Qed.

Lemma digit_range (c : char) : is_digit c = true -> 48 <= c <= 57.
Proof.
  unfold is_digit. intros H. apply andb_true_iff in H. destruct H as [H1 H2].
  apply N.leb_le in H1, H2. lia.
Qed.

Ltac digit_tests c :=
  repeat match goal with
  | |- context [c =? ?k] => destruct (N.eqb_spec c k); [lia|]
  | |- context [?k =? c] => destruct (N.eqb_spec k c); [lia|]
  end.

Lemma scan_scalar_digits (ds rest : str) :
  ds <> [] -> forallb is_digit ds = true ->
  (ds = [48] \/ exists c r, ds = c :: r /\ (c =? 48) = false) ->
  ends_number rest = true ->
  scan_scalar (ds ++ rest) = Some (PyInt (digits_value ds), rest).
Proof.
  intros Hne Hds Hhead Hrest.
  assert (Hrest' : match rest with [] => True | c :: _ => is_digit c = false end).
  { destruct rest as [|c r]; [exact I|]. cbn [ends_number] in Hrest.
    apply negb_true_iff in Hrest. now destruct (is_digit c). }
  assert (Hfrac : match_frac rest = None).
  { destruct rest as [|c r]; [reflexivity|]. cbn [ends_number] in Hrest.
    apply negb_true_iff in Hrest. unfold match_frac.
    destruct (c =? 46); [|reflexivity].
    now rewrite orb_true_r in Hrest. }
  assert (Hexp : match_exp rest = None).
  { destruct rest as [|c r]; [reflexivity|]. cbn [ends_number] in Hrest.
    apply negb_true_iff in Hrest. unfold match_exp.
    destruct (c =? 101); [now rewrite !orb_true_r in Hrest|].
    destruct (c =? 69); [now rewrite !orb_true_r in Hrest|]. reflexivity. }
  destruct ds as [|c r]; [now elim Hne|].
  pose proof Hds as Hc. cbn [forallb] in Hc. apply andb_true_iff in Hc.
  destruct Hc as [Hc _]. pose proof (digit_range _ Hc) as Hr.
  assert (Hconst : scan_constant ((c :: r) ++ rest) = None).
  { unfold scan_constant.
    change (lit "null") with [110; 117; 108; 108].
    change (lit "true") with [116; 114; 117; 101].
    change (lit "false") with [102; 97; 108; 115; 101].
    cbn [app strip_prefix]. digit_tests c. reflexivity. }
  unfold scan_scalar. rewrite Hconst.
  assert (Hint : match_integer ((c :: r) ++ rest) = Some (c :: r, rest)).
  { unfold match_integer. cbn [app startswith]. digit_tests c.
    cbn [andb app].
    destruct Hhead as [E | (c' & r' & E & H48)].
    - injection E as -> ->. reflexivity.
    - injection E as <- <-. rewrite H48, Hc.
      change (c :: r ++ rest) with ((c :: r) ++ rest).
      rewrite (span_digits_app (c :: r) rest Hds Hrest'). reflexivity. }
  unfold scan_number. rewrite Hint, Hfrac, Hexp. cbv zeta.
  unfold int_value. cbn [startswith]. digit_tests c. reflexivity.
Qed.

Lemma scan_once_number (fuel : nat) (n : N) (rest : str) :
  ends_number rest = true ->
  scan_once (S fuel) (str_of_N n ++ rest) = Some (PyInt (Z.of_N n), rest)
  /\ skip_ws (str_of_N n ++ rest) = str_of_N n ++ rest.
Proof.
  intros Hrest.
  assert (Hds : forallb is_digit (str_of_N n) = true)
    by (rewrite str_of_N_chars; apply uint_chars_digits).
  assert (Hval : digits_value (str_of_N n) = Z.of_N n)
    by (rewrite str_of_N_chars; apply digits_value_to_uint).
  assert (Hhead : str_of_N n = [48]
                  \/ exists c r, str_of_N n = c :: r /\ (c =? 48) = false).
  { destruct (str_of_N_head n) as [E | (c & r & E & _ & H)]; [now left|].
    right. now exists c, r. }
  assert (Hne : str_of_N n <> []).
  { destruct Hhead as [E | (c & r & E & _)]; rewrite E; discriminate. }
  pose proof (@scan_scalar_digits _ _ Hne Hds Hhead Hrest) as Hscan.
  rewrite Hval in Hscan.
  destruct (str_of_N n) as [|c r] eqn:E; [now elim Hne|].
  cbn [forallb] in Hds. apply andb_true_iff in Hds. destruct Hds as [Hc _].
  pose proof (digit_range _ Hc) as Hr.
  split.
  - cbn [scan_once app]. cbn [app] in Hscan. digit_tests c. exact Hscan.
  - cbn [app skip_ws]. unfold is_ws. digit_tests c. reflexivity.
Qed.

Lemma json_loads_unread_count (count : nat) :
  json_loads (dumps_unread_count count) = Some (unread_count_object count).
Proof.
  unfold json_loads.
  assert (Hs : dumps_unread_count count
               = 123 :: 34 :: lit "type" ++ 34 :: 58 :: 32
                 :: 34 :: lit "unread_count" ++ 34 :: 44 :: 32
                 :: 34 :: lit "count" ++ 34 :: 58 :: 32
                 :: str_of_N (N.of_nat count) ++ [125]).
  { unfold dumps_unread_count, quoted.
    change (lit "{") with [123]. change (lit ": ") with [58; 32].
    change (lit ", ") with [44; 32]. change (lit "}") with [125].
    cbn [app]. rewrite <- !List.app_assoc. cbn [app]. reflexivity. }
  rewrite Hs. clear Hs.
cbn [startswith]. change (65279 =? 123) with false. cbn [andb].
  match goal with
  | |- context [skip_ws (123 :: ?x)] => change (skip_ws (123 :: x)) with (123 :: x)
  end.
  match goal with
  | |- context [scan_once ?f _] =>
      remember f as F eqn:EF; assert (HF : (4 <= F)%nat) by (subst F; cbn [List.length]; lia);
      clear EF
  end.
  destruct F as [|[|[|[|F]]]]; try lia. clear HF.
  cbn [scan_once]. change (123 =? 34) with false. change (123 =? 123) with true.
  cbv iota.
  match goal with
  | |- context [skip_ws (34 :: ?x)] => change (skip_ws (34 :: x)) with (34 :: x)
  end.
  cbv iota. change (34 =? 125) with false. change (34 =? 34) with true. cbv iota.
  rewrite JSONObject_pair; [|reflexivity|reflexivity].
  rewrite scan_once_string by reflexivity.
  match goal with
  | |- context [skip_ws (44 :: ?x)] => change (skip_ws (44 :: x)) with (44 :: x)
  end.
  cbv iota. change (44 =? 125) with false. change (44 =? 44) with true. cbv iota.
  match goal with
  | |- context [skip_ws (32 :: 34 :: ?x)] =>
      change (skip_ws (32 :: 34 :: x)) with (34 :: x)
  end.
  cbv iota. change (34 =? 34) with true. cbv iota.
  destruct (@scan_once_number F (N.of_nat count) [125] eq_refl) as [Hnum Hws].
  rewrite JSONObject_pair; [|reflexivity|exact Hws].
  rewrite Hnum. change (skip_ws [125]) with [125]. cbv iota.
  change (125 =? 125) with true. cbv iota. cbn [skip_ws rev app].
  unfold unread_count_object. now rewrite nat_N_Z.
Qed.

(** X15. Every text frame the consumer sends, on connecting or in answer
    to any incoming text, is a JSON document: [json.loads] reads it back
    as the object [{'type': 'unread_count', 'count': n}] with [n] the
    consumer's number of unread notifications at that moment. A frame of
    the consumer sent back to it is answered with nothing. *)
Theorem consumer_frames_parse_back (st : State) :
  (forall scope_user self frames,
      NotificationConsumer.connect st scope_user
      = NotificationConsumer.Accepted self frames ->
      Forall (fun frame =>
                json_loads frame
                = Some (unread_count_object
                          (NotificationConsumer.get_unread_count st self)))
             frames)
  /\ (forall self text_data frames,
      NotificationConsumer.receive st self text_data
      = NotificationConsumer.Sent frames ->
      Forall (fun frame =>
                json_loads frame
                = Some (unread_count_object
                          (NotificationConsumer.get_unread_count st self)))
             frames)
  /\ (forall self count,
      NotificationConsumer.receive st self (dumps_unread_count count)
      = NotificationConsumer.Sent []).
Proof.
  split; [|split].
  - intros [u|] self frames H; [|discriminate].
    unfold NotificationConsumer.connect in H. injection H as <- <-.
    constructor; [|constructor]. apply json_loads_unread_count.
  - intros self text_data frames H. unfold NotificationConsumer.receive in H.
    destruct (json_loads text_data) as [[]|]; try discriminate;
      try (injection H as <-; constructor).
    destruct (eq_str _ _); injection H as <-; constructor; [|constructor].
    apply json_loads_unread_count.
  - intros self count.
    apply receive_other_object with (d := [(lit "type", PyStr (lit "unread_count"));
                                           (lit "count", PyInt (Z.of_nat count))]).
    + apply json_loads_unread_count.
    + vm_compute. reflexivity.
Qed.

(** ** Where a notification leads *)

Lemma opens_consultation_action (n : Notification.t) (a : Action.t) :
  Notification.action n = Some a -> opens_consultation n = true.
Proof.
  intros H. unfold opens_consultation, Notification_get_url. rewrite H.
  apply startswith_app.
Qed.

Lemma Validation_save_new_links now st a u s c :
  Forall (fun n => opens_consultation n = true) (notifications st) ->
  Forall (fun n => opens_consultation n = true)
         (notifications (Validation_save_new now st a u s c)).
Proof.
  intros H. rewrite Validation_save_new_eq.
  destruct (User.eqb u (Action.auteur a)); [exact H|].
  cbn [notifications]. apply Forall_app. split; [exact H|].
  constructor; [|constructor]. now apply opens_consultation_action with a.
Qed.

Lemma notify_admin_links now instance (admins : list User.t) : forall st,
  Forall (fun n => opens_consultation n = true) (notifications st) ->
  Forall (fun n => opens_consultation n = true)
         (notifications (fold_left (notify_admin now instance) admins st)).
Proof.
  induction admins as [|x r IH]; intros st H; [exact H|].
  cbn [fold_left]. apply IH. cbn. apply Forall_app. split; [exact H|].
  constructor; [|constructor]. now apply opens_consultation_action with instance.
Qed.

Lemma validate_actions_links now request_user (queryset : list Action.t) :
  forall acc,
  Forall (fun n => opens_consultation n = true) (notifications (fst (fst acc))) ->
  Forall (fun n => opens_consultation n = true)
         (notifications
            (fst (fst (fold_left (validate_actions_step now request_user)
                         queryset acc)))).
Proof.
  induction queryset as [|x r IH]; intros [[st count] warnings] H; [exact H|].
  cbn [fold_left]. apply IH. unfold validate_actions_step.
  destruct (Validation.statut_eqb _ _); [exact H|].
  cbn [fst]. now apply Validation_save_new_links.
Qed.

(** X16. Every notification the application creates carries its action,
    so [get_url] leads to the consultation page of that action: if the
    link of every stored notification does, it still does after a
    submission of the validation pages, after the receiver of a new
    action and after the bulk validation of the admin site; none of them
    leaves a notification whose link falls back to the history page or
    to the notification list. *)
Theorem notifications_open_the_consultation_page (now : datetime.t) (st : State)
    (H : Forall (fun n => opens_consultation n = true) (notifications st)) :
  (forall k request action_id,
      Forall (fun n => opens_consultation n = true)
             (notifications (new_state (submit k now st request action_id))))
  /\ (forall instance created,
      Forall (fun n => opens_consultation n = true)
             (notifications (create_new_action_notification now st instance created)))
  /\ (forall request_user queryset,
      Forall (fun n => opens_consultation n = true)
             (notifications (fst (validate_actions now st request_user queryset)))).
Proof.
  split; [|split].
  - intros k request action_id.
    destruct (submit_cases k now st request action_id)
      as [E | (a & u & s & c & _ & _ & _ & E & _)]; rewrite E; [exact H|].
    now apply Validation_save_new_links.
  - intros instance [|]; [|exact H]. cbn [create_new_action_notification].
    now apply notify_admin_links.
  - intros request_user queryset. unfold validate_actions.
    pose proof (@validate_actions_links now request_user queryset (st, O, []) H) as L.
    destruct (fold_left _ _ _) as [[st1 count] warnings]. exact L.
Qed.

Lemma notifications_open_the_consultation_page_witness :
  Forall (fun n => opens_consultation n = true)
         (notifications
            (new_state (submit Reject Sample.t3 Sample.st_rejected
                          (Sample.post Sample.bob (lit "incomplet")) 1))).
Proof.
  apply (@notifications_open_the_consultation_page Sample.t3 Sample.st_rejected).
  vm_compute. repeat constructor.
Defined.
